(** * lib/datastore/opentsdb.js: the OpenTSDB time-series client

    A shallow embedding of the OpenTSDB datastore module of the IPM web
    application (connect, addTimeSeries, getLatestTimeSeries,
    getTimeSeriesRange, getTimeSeriesRangeList and their private helpers
    hashToString, queryRange and responseToLines), and the properties of it
    that the specification of the time-series access facade states.

    Conventions of the embedding:
    - a JavaScript string is a [string]: a sequence of 8-bit code units;
    - a JavaScript number that the module only ever uses as an integer
      (timestamps, HTTP statuses) is a [Z]; the arithmetic is exact, which
      agrees with IEEE doubles below 2^53;
    - a JavaScript object whose property order is observable is an
      association list in insertion order (module [JsObject]); an object that
      is only used as a dictionary is a [gmap];
    - the asynchronous environment (HTTP responses, socket events) is an
      explicit input: a response value for the queries, a list of event-loop
      actions for the socket code. *)

From stdpp Require Import base list strings sorting gmap pretty.
From Stdlib Require Import ZArith Ascii.

Local Open Scope string_scope.
Local Open Scope Z_scope.

(** ** JavaScript values that reach a point's fields *)

Inductive JsVal : Type :=
  | JNum (n : Z)        (* an integral Number *)
  | JNaN                (* the Number NaN *)
  | JStr (s : string).  (* a String *)

Global Instance JsVal_eq_dec : EqDecision JsVal.
Proof. solve_decision. Defined.

Definition is_number (v : JsVal) : bool :=
  match v with JNum _ | JNaN => true | JStr _ => false end.

(** ** Digits and [parseInt] *)

Module Digits.

(** Value of a character as a digit of the given radix (10 or 16). *)
Definition digit_val (radix : Z) (c : ascii) : option Z :=
  let n := Z.of_N (N_of_ascii c) in
  if decide (48 ≤ n ≤ 57) then Some (n - 48)
  else if decide (radix = 16 ∧ 97 ≤ n ≤ 102) then Some (n - 87)
  else if decide (radix = 16 ∧ 65 ≤ n ≤ 70) then Some (n - 55)
  else None.

(** The digit values of the longest prefix of [s] made of digits. *)
Fixpoint take_digits (radix : Z) (s : string) : list Z :=
  match s with
  | EmptyString => []
  | String c s' =>
      match digit_val radix c with
      | Some d => d :: take_digits radix s'
      | None => []
      end
  end.

Definition digits_value (radix : Z) (ds : list Z) : Z :=
  foldl (λ acc d, acc * radix + d) 0 ds.

(** StrWhiteSpaceChar, restricted to 8-bit code units. *)
Definition is_js_space (c : ascii) : bool :=
  let n := N_of_ascii c in
  bool_decide (n = 9 ∨ n = 10 ∨ n = 11 ∨ n = 12 ∨ n = 13 ∨ n = 32 ∨ n = 160)%N.

Fixpoint trim_left (s : string) : string :=
  match s with
  | String c s' => if is_js_space c then trim_left s' else s
  | EmptyString => EmptyString
  end.

(** [parseInt(s)] with no radix argument: leading white space is skipped,
    a sign is read, a [0x] or [0X] prefix selects radix 16, and the longest
    prefix of digits is taken; there being none, the result is NaN. The
    integer read is kept as it is: this is the Number the code gets as long
    as it lies below 2^53 in magnitude (from there on the code's Number is
    the nearest double). The properties that name a parsed value bound the
    keys accordingly. *)
Definition parseInt (s : string) : JsVal :=
  let s1 := trim_left s in
  let '(sign, s2) :=
    match s1 with
    | String c r =>
        if decide (c = "-"%char) then (-1, r)
        else if decide (c = "+"%char) then (1, r)
        else (1, s1)
    | EmptyString => (1, s1)
    end in
  let '(radix, s3) :=
    match s2 with
    | String c1 (String c2 r) =>
        if decide (c1 = "0"%char ∧ (c2 = "x"%char ∨ c2 = "X"%char))
        then (16, r) else (10, s2)
    | _ => (10, s2)
    end in
  match take_digits radix s3 with
  | [] => JNaN
  | ds => JNum (sign * digits_value radix ds)
  end.

(** A decimal numeral: one or more decimal digits, nothing else. *)
Fixpoint all_decimal (s : string) : bool :=
  match s with
  | EmptyString => true
  | String c s' => bool_decide (is_Some (digit_val 10 c)) && all_decimal s'
  end.

Definition is_decimal (s : string) : bool :=
  bool_decide (s ≠ EmptyString) && all_decimal s.

(** The number a decimal numeral denotes. *)
Definition decimal_value (s : string) : Z :=
  digits_value 10 (take_digits 10 s).

(** [(num / den).toFixed(0)] for [den > 0] and a quotient below 10^21: the
    decimal numeral of the integer nearest to the quotient, the one of
    larger magnitude on a tie, with the sign of the quotient in front. The
    result is a String. The quotient is taken exactly: for [den = 1000] and
    [num] below 2^53 in magnitude the double the code divides to lies on
    the same side of every half as the exact quotient (its error is below
    1/1000, and the halves are doubles), so the numeral is the same; from
    2^53 on the code's result can differ. The properties that name the
    seconds bound the timestamp accordingly. *)
Definition toFixed0 (num den : Z) : string :=
  let n := (2 * Z.abs num + den) / (2 * den) in
  if decide (num < 0) then "-" +:+ pretty n else pretty n.

End Digits.

Export Digits.

(** ** JavaScript objects with observable property order *)

Module JsObject.

(** Own enumerable string-keyed properties, in insertion order. Keys are
    unique: [set] keeps them so. *)
Definition t (V : Type) : Type := list (string * V).

(** An array index: the canonical numeral of an integer below 2^32 - 1. *)
Definition is_array_index (k : string) : bool :=
  is_decimal k
  && match k with String "0" (String _ _) => false | _ => true end
  && bool_decide (decimal_value k < 2 ^ 32 - 1).

Definition index_le (a b : string) : Prop :=
  decimal_value a ≤ decimal_value b.

Global Instance index_le_dec : RelDecision index_le.
Proof. intros a b. unfold index_le. apply _. Defined.

Section Ops.
Context {V : Type}.

Definition empty : t V := [].

(** [o[k]] for an own property: [None] is [undefined]. A name that every
    object inherits from Object.prototype ("constructor", "toString", ...)
    is read through the prototype by the code where the object has no such
    property of its own; [get] does not see that. The properties that hang
    on such a read ask for a name that is not inherited. *)
Fixpoint get (k : string) (o : t V) : option V :=
  match o with
  | [] => None
  | (k', v) :: o' => if decide (k' = k) then Some v else get k o'
  end.

(** [o[k] = v]: an existing property keeps its place. *)
Fixpoint set (k : string) (v : V) (o : t V) : t V :=
  match o with
  | [] => [(k, v)]
  | (k', v') :: o' =>
      if decide (k' = k) then (k, v) :: o' else (k', v') :: set k v o'
  end.

(** [Object.keys(o)] (OrdinaryOwnPropertyKeys): the array indices in
    ascending numeric order, then the other keys in insertion order. *)
Definition keys (o : t V) : list string :=
  merge_sort index_le (filter (λ k, is_array_index k = true) o.*1)
  ++ filter (λ k, is_array_index k ≠ true) o.*1.

End Ops.

End JsObject.

(** JavaScript truthiness of the values the module tests. *)
Definition truthy (v : option JsVal) : bool :=
  match v with
  | None | Some JNaN => false
  | Some (JNum n) => bool_decide (n ≠ 0)
  | Some (JStr s) => bool_decide (s ≠ "")
  end.

(** ToPropertyKey: the string a value becomes when used as a property name. *)
Definition to_property_key (v : option JsVal) : string :=
  match v with
  | None => "undefined"
  | Some JNaN => "NaN"
  | Some (JNum n) => pretty n
  | Some (JStr s) => s
  end.

(** ** Points and [responseToLines] *)

(** A point as the module hands it to its callers. [value] is what the
    property read produced: [None] is [undefined]. *)
Record Point (V : Type) : Type := mkPoint {
  timestamp : JsVal;
  value : option V;
}.
Global Arguments mkPoint {V} _ _.
Global Arguments timestamp {V} _.
Global Arguments value {V} _.

(** [Array.prototype.sort()] without a comparator on an array of strings:
    ascending order of the code units. *)
Definition js_sort (l : list string) : list string :=
  merge_sort String.le l.

Definition responseToLines {V} (dps : JsObject.t V) : list (Point V) :=
  (λ key, mkPoint (parseInt key) (JsObject.get key dps))
    <$> js_sort (JsObject.keys dps).

(** ** The store's HTTP responses, as superagent hands them over *)

(** [res.error]: [false], or an Error that carries the HTTP status. *)
Record ResError : Type := mkResError {
  status : Z;
  message : string;
}.

(** One sub-series of a [/api/query] answer. *)
Record Series (V : Type) : Type := mkSeries {
  tags : JsObject.t JsVal;
  dps : JsObject.t V;
}.
Global Arguments mkSeries {V} _ _.
Global Arguments tags {V} _.
Global Arguments dps {V} _.

(** One entry of a [/api/query/last] answer; [lp_timestamp] is in
    milliseconds. *)
Record LastPoint (V : Type) : Type := mkLastPoint {
  lp_timestamp : Z;
  lp_value : V;
}.
Global Arguments mkLastPoint {V} _ _.
Global Arguments lp_timestamp {V} _.
Global Arguments lp_value {V} _.

(** [res.body], the parsed JSON. *)
Inductive Body (A : Type) : Type :=
  | BodyNone                                  (* undefined or null: falsy *)
  | BodyObject (error_message : option string)
      (* an object that is no array; [error_message] is
         [body.error.message] where [body.error] is truthy *)
  | BodyArray (items : list A).
Global Arguments BodyNone {A}.
Global Arguments BodyObject {A} _.
Global Arguments BodyArray {A} _.

Record Response (A : Type) : Type := mkResponse {
  res_error : option ResError;
  res_body : Body A;
}.
Global Arguments mkResponse {A} _ _.
Global Arguments res_error {A} _.
Global Arguments res_body {A} _.

(** The arguments of the [.end(function(err, res) ...)] handler. [err] is the
    text of the transport or HTTP error, [None] when it is null. *)
Record HttpResult (A : Type) : Type := mkHttpResult {
  err : option string;
  res : option (Response A);
}.
Global Arguments mkHttpResult {A} _ _.
Global Arguments err {A} _.
Global Arguments res {A} _.

Inductive TsdbError : Type := mkTsdbError (cause : string).

(** What the module does to the outside world, in program order. *)
Inductive Effect : Type :=
  | HttpGet (uri : string)
  | StatsTiming (name : string)
  | StatsIncrement (name : string)
  | LogInfo (msg : string)
  | LogError (msg : string)
  | LogFatal (msg : string)
  | CreateConnection (port host : string)     (* net.createConnection *)
  | SocketWrite (socket : nat) (data : string)
  | SocketDestroy (socket : nat)
  | CallbackFired (callback : nat) (error : option string)
      (* a caller's callback of [connect] or [addTimeSeries] is fired *)
  | ProcessExit (code : Z).

(** How a call ends: the caller's callback is fired with [(err, result)], or
    a TypeError escapes. *)
Inductive Completion (A : Type) : Type :=
  | Callback (error : option TsdbError) (result : A)
  | Throw (what : string).
Global Arguments Callback {A} _ _.
Global Arguments Throw {A} _.

Definition Eff (A : Type) : Type := list Effect * A.

Definition eff_bind {A B} (m : Eff A) (k : A → Eff B) : Eff B :=
  let '(e1, a) := m in let '(e2, b) := k a in ((e1 ++ e2)%list, b).
Definition eff_ret {A} (a : A) : Eff A := ([], a).
Definition emit (e : Effect) : Eff unit := ([e], tt).

Notation "m >> k" := (eff_bind m (λ _, k))
  (at level 100, right associativity).

Record Config : Type := mkConfig {
  host : string;   (* opentsdb:host *)
  port : string;   (* opentsdb:port *)
}.

Record Filter : Type := mkFilter {
  f_start : Z;                          (* filter.start.unix() *)
  f_end : Z;                            (* filter.end.unix() *)
  aggregation : string;
  qualifiers : option (list string);
  f_tags : option (JsObject.t JsVal);   (* [None]: no [tags] property *)
}.

Definition set_tags (t : option (JsObject.t JsVal)) (f : Filter) : Filter :=
  mkFilter (f_start f) (f_end f) (aggregation f) (qualifiers f) t.

(** [s.indexOf(needle) > -1] *)
Fixpoint contains (needle s : string) : bool :=
  String.prefix needle s
  || match s with
     | EmptyString => false
     | String _ s' => contains needle s'
     end.

(** [arr.join(sep)] *)
Fixpoint join (sep : string) (l : list string) : string :=
  match l with
  | [] => ""
  | [x] => x
  | x :: l' => x +:+ sep +:+ join sep l'
  end.

(** The body of the [for (var field in obj)] loop of [hashToString]: only
    own properties whose value is a string are written. *)
Definition hashToString_step (obj : JsObject.t JsVal)
    (retval field : string) : string :=
  match JsObject.get field obj with
  | Some (JStr v) =>
      (if decide (retval ≠ "") then retval +:+ "," else retval)
        +:+ field +:+ "=" +:+ v
  | _ => retval
  end.

Definition hashToString (obj : JsObject.t JsVal) : string :=
  foldl (hashToString_step obj) "" (JsObject.keys obj).

Definition logTsdbRequest (uri : string) : Eff unit :=
  emit (LogInfo ("Outgoing TSDB request: " +:+ uri)).

(** The text [err] has inside a string concatenation. *)
Definition show_err (e : option string) : string := default "null" e.

(** The store's "series not known" answers of [queryRange]: any 400, or a
    500 whose body's error message has "No such name for " in it. *)
Definition queryRange_no_data {A} (r : Response A) : bool :=
  match res_error r with
  | None => false   (* [res.error.status] of [false] is undefined *)
  | Some e =>
      bool_decide (status e = 400)
      || (bool_decide (status e = 500)
          && match res_body r with
             | BodyObject (Some m) =>
                 bool_decide (m ≠ "") && contains "No such name for " m
             | _ => false
             end)
  end.

(** The same test as [getLatestTimeSeries] writes it: a 400 or a 500, and in
    both cases the "No such name for " message. *)
Definition getLatestTimeSeries_no_data {A} (r : Response A) : bool :=
  match res_error r with
  | None => false
  | Some e =>
      (bool_decide (status e = 400) || bool_decide (status e = 500))
      && match res_body r with
         | BodyObject (Some m) =>
             bool_decide (m ≠ "") && contains "No such name for " m
         | _ => false
         end
  end.

(** [err || res.error], for a response that is there. *)
Definition failed {A} (e : option string) (r : Response A) : bool :=
  bool_decide (is_Some e) || bool_decide (is_Some (res_error r)).

(** [err || res.error.message], evaluated where [err || res.error] held. *)
Definition error_cause {A} (h : HttpResult A) : string :=
  match err h, res h with
  | Some e, _ => e
  | None, Some r => from_option message "" (res_error r)
  | None, None => ""
  end.

Section Queries.
Context {V : Type}.
Variable localConfig : Config.

(** The URI [queryRange] asks for; [None] where [Object.keys(filter.tags)]
    throws because the filter has no tags. *)
Definition queryRange_uri (metric : string) (filter : Filter) : option string :=
  let uri := "http://" +:+ host localConfig +:+ ":" +:+ port localConfig
             +:+ "/api/query?start=" +:+ pretty (f_start filter)
             +:+ "&end=" +:+ pretty (f_end filter)
             +:+ "&m=" +:+ aggregation filter +:+ ":" in
  let uri :=
    match qualifiers filter with
    | Some (q :: qs) => uri +:+ join ":" (q :: qs) +:+ ":"
    | _ => uri
    end in
  let uri := uri +:+ metric in
  match f_tags filter with
  | None => None
  | Some tags =>
      Some (if decide (JsObject.keys tags ≠ [])
            then uri +:+ "{" +:+ hashToString tags +:+ "}" else uri)
  end.

(** The response handler of [queryRange]. *)
Definition queryRange_end {R} (uri : string) (h : HttpResult (Series V))
    (callback : option TsdbError → Body (Series V) → Eff (Completion R))
    : Eff (Completion R) :=
  let real_error :=
    emit (LogError ("Error reading from OpenTSDB " +:+ uri +:+ ": "
                    +:+ show_err (err h))) >>
    emit (StatsIncrement "opentsdb.query.queryRange.failure") >>
    callback (Some (mkTsdbError (error_cause h))) BodyNone in
  match res h with
  | None =>
      match err h with
      | Some _ => real_error
      | None => eff_ret (Throw "TypeError: res is undefined")
      end
  | Some r =>
      if failed (err h) r then
        if queryRange_no_data r then
          emit (StatsTiming "opentsdb.query.queryRange.time") >>
          callback None (BodyArray [])
        else real_error
      else
        emit (StatsTiming "opentsdb.query.queryRange.time") >>
        match res_body r with
        | BodyNone => callback None (BodyArray [])
        | body => callback None body
        end
  end.

Definition queryRange {R} (metric : string) (filter : Filter)
    (http : string → HttpResult (Series V))
    (callback : option TsdbError → Body (Series V) → Eff (Completion R))
    : Eff (Completion R) :=
  match queryRange_uri metric filter with
  | None => eff_ret (Throw "TypeError: Object.keys called on non-object")
  | Some uri =>
      logTsdbRequest uri >>
      emit (HttpGet uri) >>
      queryRange_end uri (http uri) callback
  end.

Definition getLatestTimeSeries_uri (metric : string)
    (tags : JsObject.t JsVal) : string :=
  let uri := "http://" +:+ host localConfig +:+ ":" +:+ port localConfig
             +:+ "/api/query/last?back_scan=96&timeseries=" +:+ metric in
  if decide (JsObject.keys tags ≠ [])
  then uri +:+ "{" +:+ hashToString tags +:+ "}" else uri.

(** The response handler of [getLatestTimeSeries]. The result [None] is
    [callback()] or [callback(err)]: no point. *)
Definition getLatestTimeSeries_end (uri : string)
    (h : HttpResult (LastPoint V)) : Eff (Completion (option (Point V))) :=
  let real_error :=
    emit (LogError ("Error reading from OpenTSDB " +:+ uri +:+ ": "
                    +:+ show_err (err h))) >>
    emit (StatsIncrement "opentsdb.query.getLatestTimeSeries.failure") >>
    eff_ret (Callback (Some (mkTsdbError (error_cause h))) None) in
  match res h with
  | None =>
      match err h with
      | Some _ => real_error
      | None => eff_ret (Throw "TypeError: res is undefined")
      end
  | Some r =>
      if failed (err h) r then
        if getLatestTimeSeries_no_data r then
          emit (StatsTiming "opentsdb.query.getLatestTimeSeries.time") >>
          eff_ret (Callback None None)
        else real_error
      else
        emit (StatsTiming "opentsdb.query.getLatestTimeSeries.time") >>
        match res_body r with
        | BodyArray (point :: _) =>
            (* OpenTSDB's /api/query returns timestamps in milliseconds *)
            eff_ret (Callback None
              (Some (mkPoint (JStr (toFixed0 (lp_timestamp point) 1000))
                             (Some (lp_value point)))))
        | _ => eff_ret (Callback None None)
        end
  end.

Definition getLatestTimeSeries (metric : string) (tags : JsObject.t JsVal)
    (http : string → HttpResult (LastPoint V))
    : Eff (Completion (option (Point V))) :=
  let uri := getLatestTimeSeries_uri metric tags in
  logTsdbRequest uri >>
  emit (HttpGet uri) >>
  getLatestTimeSeries_end uri (http uri).

Definition getTimeSeriesRange (metric : string) (filter : Filter)
    (http : string → HttpResult (Series V))
    : Eff (Completion (list (Point V))) :=
  queryRange metric filter http (λ err body,
    match err, body with
    | None, BodyArray [series] =>
        (* Return the results *)
        eff_ret (Callback None (responseToLines (dps series)))
    | None, BodyNone =>
        eff_ret (Throw "TypeError: body is undefined")
    | _, _ => eff_ret (Callback err [])
    end).

(** [filter.tags[group]], after the two guards of
    [getTimeSeriesRangeList] ran. *)
Definition ensure_group_tag (group : string) (filter : Filter) : Filter :=
  let tags :=
    match f_tags filter with None => JsObject.empty | Some tags => tags end in
  let tags :=
    if truthy (JsObject.get group tags) then tags
    else JsObject.set group (JStr "*") tags in
  set_tags (Some tags) filter.

(** The callers' filter object is updated in place: the first component is
    the filter as the caller sees it afterwards. *)
Definition getTimeSeriesRangeList (metric : string) (filter : Filter)
    (group : string) (http : string → HttpResult (Series V))
    : Filter * Eff (Completion (gmap string (list (Point V)))) :=
  (* Ensure that the group tag is present in the filter *)
  let filter := ensure_group_tag group filter in
  (* Perform the query *)
  (filter,
   queryRange metric filter http (λ err body,
     match err, body with
     | None, BodyArray items =>
         (* Process the result into an object *)
         eff_ret (Callback err
           (foldl (λ retval series,
              <[to_property_key (JsObject.get group (tags series))
                := responseToLines (dps series)]> retval) ∅ items))
     | None, _ => eff_ret (Throw "TypeError: body.forEach is not a function")
     | Some _, _ => eff_ret (Callback err ∅)
     end)).

End Queries.

(** ** [renameTagValue] *)

(** [err || res.error]: the text of [err], or the Error of the response. *)
Inductive ErrorValue : Type :=
  | ErrText (text : string)
  | ErrObject (e : ResError).

(** How [renameTagValue] ends: [callback(new TsdbError(error))],
    [callback()], or a TypeError where [res] is undefined. *)
Inductive RenameCompletion : Type :=
  | RenameCallback (error : option ErrorValue)
  | RenameThrow (what : string).

(** The text an error value has inside a string concatenation; superagent
    builds the Error of a response with [new Error(msg)]. *)
Definition show_error_value (e : ErrorValue) : string :=
  match e with
  | ErrText text => text
  | ErrObject e => "Error: " +:+ message e
  end.

Definition renameTagValue_uri (cfg : Config) (oldname newname : string)
    : string :=
  "http://" +:+ host cfg +:+ ":" +:+ port cfg
  +:+ "/api/uid/rename?tagv=" +:+ oldname +:+ "&name=" +:+ newname.

Definition renameTagValue {A} (cfg : Config) (oldname newname : string)
    (http : string → HttpResult A) : Eff RenameCompletion :=
  let uri := renameTagValue_uri cfg oldname newname in
  logTsdbRequest uri >>
  emit (HttpGet uri) >>
  let h := http uri in
  let failure (error : ErrorValue) :=
    emit (LogError ("Error renaming tag value ('" +:+ oldname +:+ "'=>'"
                    +:+ newname +:+ "' in OpenTSDB: "
                    +:+ show_error_value error)) >>
    eff_ret (RenameCallback (Some error)) in
  match err h, res h with
  | Some e, _ => failure (ErrText e)
  | None, Some r =>
      match res_error r with
      | Some e => failure (ErrObject e)
      | None => eff_ret (RenameCallback None)
      end
  | None, None => eff_ret (RenameThrow "TypeError: res is undefined")
  end.

(** ** The socket to the store: [connect] and [addTimeSeries]

    The module keeps one socket in the variable [opentsdb]. Its code runs
    in turns of the event loop: a call from the application, or an event of
    a socket. [step] is one such turn. What the environment decides in a
    turn (does [net.createConnection] throw, what does [socket.write]
    return) comes with the action. *)

(** The callback [connect] was given: one of the application, named by a
    number, or the closure [sendTimeSeries] of an [addTimeSeries] call. *)
Inductive ConnectCallback : Type :=
  | AppCallback (callback : nat)
  | SendTimeSeries (metric : string) (callback : nat).

Inductive Phase : Type :=
  | Connecting     (* created; [connectionError] listens for 'error' *)
  | Established    (* connected; the network error listener is on *)
  | Destroyed.

(** A [net.Socket] of the heap. *)
Record Socket : Type := mkSocket {
  phase : Phase;
  writable : bool;                 (* socket.writable *)
  on_connect : ConnectCallback;    (* what [connectionEstablished] calls *)
  pending : list nat;              (* callbacks of the writes under way *)
}.

Inductive ProcStatus : Type :=
  | Running
  | Exited (code : Z)              (* process.exit(code) *)
  | Crashed (what : string).       (* an uncaught exception *)

Record State : Type := mkState {
  localConfig : option Config;
  opentsdb : option nat;           (* the socket, by its place in the heap *)
  sockets : list Socket;
  proc : ProcStatus;
  trace : list Effect;
}.

(** What the environment decides during a turn. *)
Record Env : Type := mkEnv {
  create_throws : option string;   (* net.createConnection throws this *)
  write_returns : bool;            (* the result of socket.write *)
}.

Inductive Action : Type :=
  | CallConnect (nconf : Config) (callback : nat) (env : Env)
  | CallAddTimeSeries (metric : string) (callback : nat) (env : Env)
  | SocketConnected (socket : nat) (env : Env)        (* 'connect' *)
  | SocketError (socket : nat) (error : string)       (* 'error' *)
  | SocketClosed (socket : nat)                       (* no longer writable *)
  | WriteFinished (socket : nat) (error : option string).
      (* the transport is done with the oldest write under way and fires
         its callback, with the error if it failed *)

Definition initial : State := mkState None None [] Running [].

Definition record (es : list Effect) (st : State) : State :=
  mkState (localConfig st) (opentsdb st) (sockets st) (proc st)
          (trace st ++ es)%list.

Definition set_proc (p : ProcStatus) (st : State) : State :=
  mkState (localConfig st) (opentsdb st) (sockets st) p (trace st).

Definition set_opentsdb (o : option nat) (st : State) : State :=
  mkState (localConfig st) o (sockets st) (proc st) (trace st).

Definition set_localConfig (c : option Config) (st : State) : State :=
  mkState c (opentsdb st) (sockets st) (proc st) (trace st).

Definition set_sockets (l : list Socket) (st : State) : State :=
  mkState (localConfig st) (opentsdb st) l (proc st) (trace st).

Definition update_socket (s : nat) (f : Socket → Socket) (st : State) : State :=
  match sockets st !! s with
  | Some sock => set_sockets (<[s := f sock]> (sockets st)) st
  | None => st
  end.

(** Callback for connection errors *)
Definition connectionError (err : string) (st : State) : State :=
  set_proc (Exited 1)
    (record [StatsIncrement "opentsdb.failure";
          LogFatal ("OpenTSDB connection error: " +:+ err);
          ProcessExit 1] st).

(** [connect(nconf, callback)] *)
Definition connect (nconf : option Config) (callback : ConnectCallback)
    (env : Env) (st : State) : State :=
  let st := set_localConfig nconf st in
  (* Connect to OpenTSDB *)
  match nconf with
  | None => connectionError "TypeError: localConfig is undefined" st
  | Some cfg =>
      match create_throws env with
      | Some err => connectionError err st
      | None =>
          (* Handle errors when connecting: socket.once('error', ...) *)
          record [CreateConnection (port cfg) (host cfg)]
            (set_sockets
               (sockets st ++ [mkSocket Connecting true callback []])%list st)
      end
  end.

(** Send the data to OpenTSDB *)
Definition sendTimeSeries (metric : string) (callback : nat)
    (err : option string) (env : Env) (st : State) : State :=
  match err with
  | Some e => record [CallbackFired callback (Some e)] st
  | None =>
      match opentsdb st with
      | None => set_proc (Crashed "TypeError: opentsdb is undefined") st
      | Some s =>
          (* put <name> <seconds_timestamp> <value> *)
          let st :=
            record [SocketWrite s ("put " +:+ metric +:+ String "010" "")]
              (update_socket s (λ sock,
                 mkSocket (phase sock) (writable sock) (on_connect sock)
                          (pending sock ++ [callback])%list) st) in
          if write_returns env then
            record [StatsTiming "opentsdb.write.time"] st
          else
            record [StatsIncrement "opentsdb.write.delayed";
                 (* This should not be a problem unless data is queued for
                    too long *)
                 LogInfo "OpenTSDB data queued for writing"] st
      end
  end.

(** Callback for a successful connection *)
Definition connectionEstablished (s : nat) (sock : Socket) (env : Env)
    (st : State) : State :=
  let st := record [LogInfo "Connected to OpenTSDB."] st in
  let st := set_opentsdb (Some s) st in
  (* the network error listener replaces [connectionError] *)
  let st := update_socket s (λ sock,
              mkSocket Established true (on_connect sock) (pending sock)) st in
  match on_connect sock with
  | AppCallback callback => record [CallbackFired callback None] st
  | SendTimeSeries metric callback => sendTimeSeries metric callback None env st
  end.

(** The listener for errors on an established connection. It works on the
    socket the variable [opentsdb] holds when the error arrives. *)
Definition networkError (err : string) (st : State) : State :=
  let st := record [LogError ("OpenTSDB  network error: " +:+ err)] st in
  match opentsdb st with
  | None => set_proc (Crashed "TypeError: opentsdb is undefined") st
  | Some s =>
      let st := record [SocketDestroy s]
                  (update_socket s (λ sock,
                     mkSocket Destroyed false (on_connect sock) (pending sock))
                     st) in
      set_opentsdb None st   (* Cause a reconnection *)
  end.

(** [!opentsdb || !opentsdb.writable] *)
Definition needs_reconnect (st : State) : bool :=
  match opentsdb st with
  | None => true
  | Some s =>
      match sockets st !! s with
      | Some sock => negb (writable sock)
      | None => true
      end
  end.

Definition addTimeSeries (metric : string) (callback : nat) (env : Env)
    (st : State) : State :=
  (* Check whether we need to re-open the connection to OpenTSDB *)
  if needs_reconnect st then
    (* Re-open and send *)
    connect (localConfig st) (SendTimeSeries metric callback) env st
  else
    (* Connection is open, just send *)
    sendTimeSeries metric callback None env st.

(** One turn of the event loop. A process that is gone takes no turn, and an
    event of a socket that is not in the phase for it is none. *)
Definition step (st : State) (a : Action) : State :=
  match proc st with
  | Running =>
      match a with
      | CallConnect nconf callback env =>
          connect (Some nconf) (AppCallback callback) env st
      | CallAddTimeSeries metric callback env =>
          addTimeSeries metric callback env st
      | SocketConnected s env =>
          match sockets st !! s with
          | Some sock =>
              match phase sock with
              | Connecting => connectionEstablished s sock env st
              | _ => st
              end
          | None => st
          end
      | SocketError s err =>
          match sockets st !! s with
          | Some sock =>
              match phase sock with
              | Connecting => connectionError err st
              | Established => networkError err st
              | Destroyed => st
              end
          | None => st
          end
      | SocketClosed s =>
          update_socket s (λ sock,
            mkSocket (phase sock) false (on_connect sock) (pending sock)) st
      | WriteFinished s err =>
          match sockets st !! s with
          | Some sock =>
              match pending sock with
              | callback :: rest =>
                  record [CallbackFired callback err]
                    (update_socket s (λ sock,
                       mkSocket (phase sock) (writable sock) (on_connect sock)
                                rest) st)
              | [] => st
              end
          | None => st
          end
      end
  | _ => st
  end.

Definition run (st : State) (actions : list Action) : State :=
  foldl step st actions.

(** The effects a run added to the trace. *)
Definition effects_since (st st' : State) : list Effect :=
  drop (length (trace st)) (trace st').

(** The connection attempts among some effects. *)
Definition connection_attempts (es : list Effect) : nat :=
  length (omap (λ e, match e with
                     | CreateConnection p h => Some (p, h)
                     | _ => None
                     end) es).

(** * The vocabulary of the specification *)

(** All keys of the raw point map are decimal numerals of width [w], as the
    second-granularity timestamps of one answer are. *)
Definition numerals_of_width {V} (w : nat) (dps : JsObject.t V) : Prop :=
  Forall (λ k, is_decimal k = true ∧ String.length k = w) dps.*1.

(** An HTTP 400 answer of the store. *)
Definition is_bad_request {A} (r : Response A) : Prop :=
  ∃ e, res_error r = Some e ∧ status e = 400.

(** An HTTP 500 answer whose body's error message has "No such name for "
    in it. *)
Definition is_no_such_name {A} (r : Response A) : Prop :=
  ∃ e m, res_error r = Some e ∧ status e = 500
         ∧ res_body r = BodyObject (Some m)
         ∧ contains "No such name for " m = true.

(** A transport failure or a non-success answer: [err || res.error]. *)
Definition is_failure {A} (h : HttpResult A) : Prop :=
  is_Some (err h) ∨ ∃ r, res h = Some r ∧ is_Some (res_error r).

(** The value of the group tag a returned sub-series carries, as the
    property name it becomes. *)
Definition group_value {V} (group : string) (s : Series V) : string :=
  to_property_key (JsObject.get group (tags s)).

(** The names every object inherits from Object.prototype: a read of one
    of them finds a value on any object. *)
Definition inherited_property (k : string) : bool :=
  bool_decide (k ∈ ["constructor"; "toString"; "toLocaleString"; "valueOf";
                    "hasOwnProperty"; "isPrototypeOf";
                    "propertyIsEnumerable"; "__proto__";
                    "__defineGetter__"; "__defineSetter__";
                    "__lookupGetter__"; "__lookupSetter__"]).

(** The filter has no usable value for the group tag, [!filter.tags[group]]
    holds: the name is none that every object inherits, and there are no
    [tags] at all, no such property, or a falsy one. *)
Definition lacks_group_tag (filter : Filter) (group : string) : Prop :=
  inherited_property group = false
  ∧ truthy (f_tags filter ≫= JsObject.get group) = false.

(** A value of the group tag that [retval[value] = ...] stores as a
    property of its own: every string but "__proto__", whose assignment
    sets the prototype. *)
Definition stored_as_property (k : string) : Prop := k ≠ "__proto__".

(** An integer that a Number holds exactly: below 2^53 in magnitude. *)
Definition exact_number (n : Z) : Prop := - 2 ^ 53 < n < 2 ^ 53.

(** The URIs requested from the store, in order. *)
Definition http_requests (effects : list Effect) : list string :=
  omap (λ e, match e with HttpGet uri => Some uri | _ => None end) effects.

(** A successful answer carrying [r]. *)
Definition is_success {A} (h : HttpResult A) (r : Response A) : Prop :=
  err h = None ∧ res h = Some r ∧ res_error r = None.

(** The connection is absent or unwritable: a write has to reconnect. *)
Definition connection_down (st : State) : Prop :=
  match opentsdb st with
  | None => True
  | Some s => ∃ sock, sockets st !! s = Some sock ∧ writable sock = false
  end.

(** The connection is open and writable, on socket [s]. *)
Definition connection_open (st : State) (s : nat) (sock : Socket) : Prop :=
  opentsdb st = Some s ∧ sockets st !! s = Some sock ∧ writable sock = true.

(** The line [addTimeSeries] writes for a metric. *)
Definition put_line (metric : string) : string :=
  "put " +:+ metric +:+ String "010" "".

(** A call of [addTimeSeries] during which [net.createConnection] does not
    throw. *)
Definition is_write_call (a : Action) : Prop :=
  ∃ metric callback env,
    a = CallAddTimeSeries metric callback env ∧ create_throws env = None.

(** What [connectionError] leaves in the trace. *)
Definition fatal_effects (err : string) : list Effect :=
  [StatsIncrement "opentsdb.failure";
   LogFatal ("OpenTSDB connection error: " +:+ err);
   ProcessExit 1].

(** The states the module can be in: those a sequence of turns leads to
    from the start. *)
Definition reachable (st : State) : Prop :=
  ∃ actions, st = run initial actions.

(** What [hashToString] writes for the property [k] of [obj]: [k=v] for a
    string [v], nothing for any other value. *)
Definition tag_entry (obj : JsObject.t JsVal) (k : string) : option string :=
  match JsObject.get k obj with
  | Some (JStr v) => Some (k +:+ "=" +:+ v)
  | _ => None
  end.

(** The statsd events among some effects. *)
Definition stats_events (es : list Effect) : list Effect :=
  omap (λ e, match e with
             | StatsTiming _ | StatsIncrement _ => Some e
             | _ => None
             end) es.

(** The lines written to sockets, with the socket, in order. *)
Definition socket_writes (es : list Effect) : list (nat * string) :=
  omap (λ e, match e with
             | SocketWrite s data => Some (s, data)
             | _ => None
             end) es.

(** The callbacks fired, with what they were handed, in order. *)
Definition callbacks_fired (es : list Effect) : list (nat * option string) :=
  omap (λ e, match e with
             | CallbackFired c e => Some (c, e)
             | _ => None
             end) es.

(** A call of [addTimeSeries]. *)
Definition write_call (call : string * nat * Env) : Action :=
  CallAddTimeSeries call.1.1 call.1.2 call.2.

(** The answers [getLatestTimeSeries] takes for "series not known": a 400
    or a 500 whose body's error message has "No such name for " in it. *)
Definition is_unknown_series {A} (r : Response A) : Prop :=
  ∃ e m, res_error r = Some e ∧ (status e = 400 ∨ status e = 500)
         ∧ res_body r = BodyObject (Some m)
         ∧ contains "No such name for " m = true.

(** The variable [opentsdb], where set, holds a socket of the heap whose
    connection is established. *)
Definition opentsdb_established (st : State) : Prop :=
  ∀ s, opentsdb st = Some s →
       ∃ sock, sockets st !! s = Some sock ∧ phase sock = Established.

(** ** Concrete answers of the store *)

Module Runs.

Definition cfg : Config := mkConfig "tsdb.local" "4242".

Definition hpc_tags : JsObject.t JsVal := [("hpc", JStr "h42")].

Definition day_filter : Filter :=
  mkFilter 1700000000 1700086400 "avg" (Some ["1h-avg"]) (Some hpc_tags).

(** The request [queryRange] makes for [day_filter] on the metric "power". *)
Definition day_uri : string :=
  "http://tsdb.local:4242/api/query?start=1700000000&end=1700086400"
  +:+ "&m=avg:1h-avg:power{hpc=h42}".

(** A 400 answer without the store's "No such name for " message. *)
Definition bad_request {A} : HttpResult A :=
  mkHttpResult (Some "Error: Bad Request")
    (Some (mkResponse (Some (mkResError 400 "cannot GET /api/query (400)"))
                      (BodyObject None))).

(** A successful [/api/query/last] answer, stamped in milliseconds. *)
Definition last_answer : HttpResult (LastPoint Z) :=
  mkHttpResult None
    (Some (mkResponse None (BodyArray [mkLastPoint 1700000000000 42]))).

(** The raw point map [{"100": 5, "20": 3}]. *)
Definition two_points : JsObject.t Z := [("100", 5); ("20", 3)].

(** Two points a minute apart, stamped in seconds. *)
Definition minute_points : JsObject.t Z :=
  [("1700000060", 7); ("1700000000", 6)].

Definition series_a : Series Z :=
  mkSeries [("hpc", JStr "a")] [("1700000000", 1)].

Definition series_b : Series Z :=
  mkSeries [("hpc", JStr "b")] [("1700000000", 2)].

(** A successful [/api/query] answer with two sub-series. *)
Definition two_series : HttpResult (Series Z) :=
  mkHttpResult None (Some (mkResponse None (BodyArray [series_a; series_b]))).

(** A filter that has no tags yet. *)
Definition bare_filter : Filter :=
  mkFilter 1700000000 1700086400 "sum" None None.

(** An environment in which nothing goes wrong. *)
Definition calm : Env := mkEnv None true.

(** The module after its connection was opened and then lost. *)
Definition lost_connection : State :=
  run initial [CallConnect cfg 0 calm; SocketConnected 0 calm;
               SocketError 0 "read ECONNRESET"].

(** The module with its connection open. *)
Definition connected : State :=
  run initial [CallConnect cfg 0 calm; SocketConnected 0 calm].

(** The raw point map of [minute_points], its properties the other way
    round. *)
Definition minute_points_rev : JsObject.t Z :=
  [("1700000000", 6); ("1700000060", 7)].

(** Two writes on the open connection. *)
Definition two_writes : list (string * nat * Env) :=
  [("power 1700000000 5", 1%nat, calm);
   ("power 1700000060 6", 2%nat, mkEnv None false)].

(** The module with two writes under way on its connection. *)
Definition busy : State := run connected (write_call <$> two_writes).

End Runs.

(** * Properties *)

(** ** Decimal numerals and the order of their code units *)

Section Numerals.

Lemma digit_val_10_range c d :
  digit_val 10 c = Some d → d = Z.of_N (N_of_ascii c) - 48 ∧ 0 ≤ d ≤ 9.
Proof.
  unfold digit_val. repeat case_decide; intros [=]; subst; lia.
Qed.

Lemma digit_val_10_plain c d :
  digit_val 10 c = Some d →
  is_js_space c = false ∧ c ≠ "-"%char ∧ c ≠ "+"%char
  ∧ c ≠ "x"%char ∧ c ≠ "X"%char.
Proof.
  intros [-> Hd]%digit_val_10_range.
  repeat split; try (intros ->; simpl in Hd; lia).
  unfold is_js_space. apply bool_decide_eq_false. lia.
Qed.

Lemma digits_value_acc ds acc :
  foldl (λ acc d, acc * 10 + d) acc ds
  = acc * 10 ^ Z.of_nat (length ds) + digits_value 10 ds.
Proof.
  unfold digits_value. revert acc.
  induction ds as [|d ds IH]; intros acc; simpl foldl.
  - simpl. lia.
  - rewrite IH, (IH (0 * 10 + d)).
    replace (Z.of_nat (length (d :: ds))) with (Z.succ (Z.of_nat (length ds)))
      by (simpl; lia).
    rewrite Z.pow_succ_r by lia. lia.
Qed.

Lemma all_decimal_cons c s :
  all_decimal (String c s) = true ↔
  (∃ d, digit_val 10 c = Some d) ∧ all_decimal s = true.
Proof.
  simpl. rewrite andb_true_iff, bool_decide_eq_true. reflexivity.
Qed.

Lemma take_digits_decimal s :
  all_decimal s = true →
  length (take_digits 10 s) = String.length s
  ∧ 0 ≤ decimal_value s < 10 ^ Z.of_nat (String.length s).
Proof.
  unfold decimal_value. induction s as [|c s IH].
  - intros _. split; [done|]. unfold digits_value. simpl. lia.
  - intros [[d Hd] Hs]%all_decimal_cons. destruct (IH Hs) as [Hlen Hval].
    cbn [take_digits]. rewrite Hd. cbn [length String.length]. split; [lia|].
    unfold digits_value at 1 2. cbn [foldl]. rewrite digits_value_acc, Hlen.
    apply digit_val_10_range in Hd as [_ Hd].
    replace (Z.of_nat (S (String.length s)))
      with (Z.succ (Z.of_nat (String.length s))) by lia.
    rewrite Z.pow_succ_r by lia. nia.
Qed.

Lemma decimal_value_cons c d s :
  digit_val 10 c = Some d → all_decimal s = true →
  decimal_value (String c s)
  = d * 10 ^ Z.of_nat (String.length s) + decimal_value s.
Proof.
  intros Hd Hs. unfold decimal_value. cbn [take_digits]. rewrite Hd.
  unfold digits_value at 1. cbn [foldl]. rewrite digits_value_acc.
  destruct (take_digits_decimal s Hs) as [-> _]. lia.
Qed.

(** On numerals of one width the order of the code units is the order of
    the numbers. *)
Lemma compare_decimal s t :
  all_decimal s = true → all_decimal t = true →
  String.length s = String.length t →
  String.compare s t = (decimal_value s ?= decimal_value t).
Proof.
  revert t. induction s as [|c s IH]; intros [|c' t]; try done.
  intros [[d Hd] Hs]%all_decimal_cons [[d' Hd'] Ht]%all_decimal_cons [= Hlen].
  rewrite (decimal_value_cons c d), (decimal_value_cons c' d') by done.
  cbn [String.compare]. rewrite (IH t Hs Ht Hlen), <-Hlen.
  destruct (take_digits_decimal s Hs) as [_ Hvs].
  destruct (take_digits_decimal t Ht) as [_ Hvt]. rewrite <-Hlen in Hvt.
  apply digit_val_10_range in Hd as [Hd _], Hd' as [Hd' _].
  unfold Ascii.compare. rewrite <-N2Z.inj_compare.
  set (P := 10 ^ Z.of_nat (String.length s)) in *.
  destruct (Z.compare_spec (Z.of_N (N_of_ascii c)) (Z.of_N (N_of_ascii c')))
    as [Heq|Hlt|Hgt].
  - rewrite Hd, Hd', Heq.
    destruct (Z.compare_spec (decimal_value s) (decimal_value t));
      symmetry; [apply Z.compare_eq_iff|apply Z.compare_lt_iff
                 |apply Z.compare_gt_iff]; lia.
  - symmetry. apply Z.compare_lt_iff. nia.
  - symmetry. apply Z.compare_gt_iff. nia.
Qed.

Lemma le_decimal s t :
  all_decimal s = true → all_decimal t = true →
  String.length s = String.length t →
  String.le s t ↔ decimal_value s ≤ decimal_value t.
Proof.
  intros Hs Ht Hlen. unfold String.le, String.leb.
  rewrite (compare_decimal s t Hs Ht Hlen). unfold Z.le.
  destruct (decimal_value s ?= decimal_value t); simpl; intuition congruence.
Qed.

(** [parseInt] reads a decimal numeral as the number it denotes. *)
Lemma parseInt_decimal s :
  is_decimal s = true → parseInt s = JNum (decimal_value s).
Proof.
  unfold is_decimal. intros [Hne Hs]%andb_prop.
  apply bool_decide_eq_true in Hne. destruct s as [|c s]; [done|].
  pose proof Hs as [[d Hd] Hs']%all_decimal_cons.
  destruct (digit_val_10_plain c d Hd) as (Hsp & Hm & Hp & _).
  unfold parseInt. cbn [trim_left]. rewrite Hsp.
  rewrite !decide_False by done.
  assert (Hradix :
    match String c s with
    | String c1 (String c2 r) =>
        if decide (c1 = "0"%char ∧ (c2 = "x"%char ∨ c2 = "X"%char))
        then (16, r) else (10, String c s)
    | _ => (10, String c s)
    end = (10, String c s)).
  { destruct s as [|c2 r]; [done|].
    apply all_decimal_cons in Hs' as [[d2 Hd2] _].
    destruct (digit_val_10_plain c2 d2 Hd2) as (_ & _ & _ & Hx & HX).
    rewrite decide_False; [done|]. intros [_ [?|?]]; done. }
  rewrite Hradix. unfold decimal_value. cbn [take_digits]. rewrite Hd.
  f_equal. lia.
Qed.

End Numerals.

Lemma contains_nonempty needle m :
  needle ≠ "" → contains needle m = true → m ≠ "".
Proof. intros Hn Hc ->. destruct needle; [done | discriminate]. Qed.

Lemma queryRange_no_data_spec {A} (r : Response A) :
  queryRange_no_data r = true ↔ is_bad_request r ∨ is_no_such_name r.
Proof.
  unfold queryRange_no_data, is_bad_request, is_no_such_name. split.
  - destruct (res_error r) as [e|] eqn:He; [|done].
    intros [H400|[H500 Hm]%andb_prop]%orb_prop.
    + left. exists e. by apply bool_decide_eq_true in H400.
    + right. destruct (res_body r) as [|[m|]|]; try done.
      apply andb_prop in Hm as [_ Hm]. apply bool_decide_eq_true in H500.
      by exists e, m.
  - intros [(e & -> & He)|(e & m & -> & He & -> & Hm)].
    + by rewrite bool_decide_eq_true_2.
    + apply orb_true_iff. right. rewrite !andb_true_iff.
      rewrite !bool_decide_eq_true. repeat split; [done| |done].
      eapply contains_nonempty; [|exact Hm]. done.
Qed.

Lemma failed_spec {A} (h : HttpResult A) (r : Response A) :
  res h = Some r → failed (err h) r = true ↔ is_failure h.
Proof.
  intros Hr. unfold failed, is_failure. rewrite orb_true_iff.
  rewrite !bool_decide_eq_true. split.
  - intros [?|?]; [by left|right; eauto].
  - intros [?|(r' & Hr' & ?)]; [by left|right]. congruence.
Qed.

(** *** Substring search *)

Lemma prefix_refl s : String.prefix s s = true.
Proof.
  induction s as [|c s IH]; simpl; [done|].
  destruct (ascii_dec c c); [done|congruence].
Qed.

Lemma prefix_app_r n s q :
  String.prefix n s = true → String.prefix n (s +:+ q) = true.
Proof.
  revert n. induction s as [|c' s IH]; intros [|c n]; try done.
  - intros _. by destruct q.
  - change (String c' s +:+ q) with (String c' (s +:+ q)). simpl.
    destruct (ascii_dec c c'); [apply IH|done].
Qed.

Lemma contains_refl s : contains s s = true.
Proof. destruct s; [done|]. cbn [contains]. by rewrite prefix_refl. Qed.

Lemma contains_app_l n p s :
  contains n s = true → contains n (p +:+ s) = true.
Proof.
  intros Hs. induction p as [|c p IH]; [done|].
  change (String c p +:+ s) with (String c (p +:+ s)).
  cbn [contains]. rewrite IH. apply orb_true_r.
Qed.

Lemma contains_app_r n s q :
  contains n s = true → contains n (s +:+ q) = true.
Proof.
  induction s as [|c s IH].
  - destruct n; [by destruct q|discriminate].
  - change (String c s +:+ q) with (String c (s +:+ q)).
    cbn [contains]. intros [Hp|Hc]%orb_prop.
    + apply (prefix_app_r _ _ q) in Hp.
      change (String c s +:+ q) with (String c (s +:+ q)) in Hp.
      by rewrite Hp.
    + rewrite (IH Hc). apply orb_true_r.
Qed.

(** *** Objects *)

Lemma JsObject_keys_perm {V} (o : JsObject.t V) : JsObject.keys o ≡ₚ o.*1.
Proof.
  unfold JsObject.keys. rewrite merge_sort_Permutation.
  apply filter_app_complement.
Qed.

Lemma JsObject_get_set {V} k (v : V) o :
  JsObject.get k (JsObject.set k v o) = Some v.
Proof.
  induction o as [|[k' v'] o IH]; simpl.
  - by rewrite decide_True.
  - destruct (decide (k' = k)) as [->|Hne]; simpl.
    + by rewrite decide_True.
    + by rewrite decide_False.
Qed.

Lemma JsObject_get_set_ne {V} k k' (v : V) o :
  k ≠ k' → JsObject.get k' (JsObject.set k v o) = JsObject.get k' o.
Proof.
  intros Hne. induction o as [|[k1 v1] o IH]; simpl.
  - by rewrite decide_False.
  - destruct (decide (k1 = k)) as [->|Hne1]; simpl.
    + by rewrite !decide_False.
    + by rewrite IH.
Qed.

Lemma JsObject_get_Some_elem {V} k (v : V) o :
  JsObject.get k o = Some v → k ∈ o.*1.
Proof.
  induction o as [|[k' v'] o IH]; simpl; [done|].
  destruct (decide (k' = k)) as [->|Hne]; intros H.
  - apply list_elem_of_here.
  - apply list_elem_of_further. auto.
Qed.

Lemma hashToString_step_contains x (obj : JsObject.t JsVal) l acc :
  contains x acc = true →
  contains x (foldl (hashToString_step obj) acc l) = true.
Proof.
  revert acc. induction l as [|f l IH]; intros acc Hacc; simpl; [done|].
  apply IH. unfold hashToString_step.
  destruct (JsObject.get f obj) as [[| |v]|]; try done.
  apply contains_app_r. by destruct (decide (acc ≠ "")); [apply contains_app_r|].
Qed.

Lemma hashToString_foldl_contains (obj : JsObject.t JsVal) k v l acc :
  JsObject.get k obj = Some (JStr v) → k ∈ l →
  contains (k +:+ "=" +:+ v) (foldl (hashToString_step obj) acc l) = true.
Proof.
  intros Hget. revert acc.
  induction l as [|k' l IH]; intros acc Hin; [by apply elem_of_nil in Hin|].
  simpl. apply elem_of_cons in Hin as [<-|Hin]; [|by apply IH].
  apply hashToString_step_contains. unfold hashToString_step. rewrite Hget.
  apply contains_app_l, contains_refl.
Qed.

(** A string-valued property shows up in [hashToString] as [key=value]. *)
Lemma hashToString_contains (obj : JsObject.t JsVal) k v :
  JsObject.get k obj = Some (JStr v) →
  contains (k +:+ "=" +:+ v) (hashToString obj) = true.
Proof.
  intros Hget. apply hashToString_foldl_contains; [done|].
  rewrite JsObject_keys_perm. by eapply JsObject_get_Some_elem.
Qed.

(** ** [responseToLines] *)

Section ResponseToLines.
Context {V : Type}.
Implicit Types (dps : JsObject.t V) (ks : list string).

Lemma JsObject_get_elem k dps :
  k ∈ dps.*1 → ∃ v, JsObject.get k dps = Some v ∧ (k, v) ∈ dps.
Proof.
  induction dps as [|[k' v'] dps IH]; simpl; [by intros ?%elem_of_nil|].
  destruct (decide (k' = k)) as [->|Hne].
  - intros _. exists v'. split; [done|]. apply list_elem_of_here.
  - intros [?|Hin]%elem_of_cons; [done|].
    destruct (IH Hin) as (v & ? & ?). exists v.
    split; [done|]. by apply list_elem_of_further.
Qed.

Lemma js_sort_sorted ks : StronglySorted String.le (js_sort ks).
Proof. apply StronglySorted_merge_sort; apply _. Qed.

Lemma js_sort_perm ks : js_sort ks ≡ₚ ks.
Proof. apply merge_sort_Permutation. Qed.

(** The order in which the keys are enumerated plays no part: there is one
    sorted arrangement of them. *)
Lemma js_sort_unique ks1 ks2 : ks1 ≡ₚ ks2 → js_sort ks1 = js_sort ks2.
Proof.
  intros Hp. apply (StronglySorted_unique String.le);
    [apply js_sort_sorted..|].
  by rewrite !js_sort_perm.
Qed.

Lemma sorted_numerals_ascending w ks :
  Forall (λ k, is_decimal k = true ∧ String.length k = w) ks →
  StronglySorted String.le ks →
  StronglySorted Z.le (decimal_value <$> ks)
  ∧ (NoDup ks → StronglySorted Z.lt (decimal_value <$> ks)).
Proof.
  intros Hall Hsorted. induction Hsorted as [|k ks Hs IH Hk].
  - split; intros; constructor.
  - apply Forall_cons in Hall as [[[_ Hdk]%andb_prop Hwk] Hall].
    destruct (IH Hall) as [IHle IHlt].
    assert (Hle : Forall (λ k', decimal_value k ≤ decimal_value k') ks).
    { rewrite Forall_forall in Hk, Hall |- *. intros k' Hin.
      destruct (Hall k' Hin) as [[_ Hdk']%andb_prop Hwk'].
      apply le_decimal; [done|done|congruence|by apply Hk]. }
    split.
    + rewrite fmap_cons. constructor; [done|]. by rewrite Forall_fmap.
    + intros [Hnotin Hnd]%NoDup_cons. rewrite fmap_cons.
      constructor; [by apply IHlt|]. rewrite Forall_fmap.
      rewrite Forall_forall in Hle, Hall |- *. intros k' Hin. simpl.
      destruct (Hall k' Hin) as [[_ Hdk']%andb_prop Hwk'].
      pose proof (Hle k' Hin) as Hle'.
      destruct (decide (decimal_value k = decimal_value k')) as [Heq|]; [|lia].
      exfalso. apply Hnotin.
      assert (String.compare k k' = Eq) as ->%String.compare_eq_iff; [|done].
      rewrite compare_decimal by (done || congruence).
      by apply Z.compare_eq_iff.
Qed.

(** A numeral of at most 15 digits denotes an integer that a Number holds
    exactly. *)
Lemma short_numeral_exact (w : nat) k :
  (w ≤ 15)%nat → is_decimal k = true → String.length k = w →
  exact_number (decimal_value k).
Proof.
  intros Hw [_ Hk]%andb_prop Hlen.
  destruct (take_digits_decimal k Hk) as [_ [H0 Hlt]]. rewrite Hlen in Hlt.
  assert (10 ^ Z.of_nat w ≤ 10 ^ 15) by (apply Z.pow_le_mono_r; lia).
  assert (10 ^ 15 < 2 ^ 53) by by vm_compute.
  unfold exact_number. lia.
Qed.

(** What [responseToLines] does, in general: it hands over one point per
    key of the raw point map, the key read by [parseInt] and the value the
    one stored under it, in ascending order of the keys' code units. Where
    all keys are decimal numerals of one width, of 15 digits at most (so
    that each is read as its exact value), this is the ascending order of
    the timestamps, strictly so as the keys of an object differ. *)
Theorem responseToLines_sorted_by_key dps :
  ∃ ks,
    ks ≡ₚ dps.*1
    ∧ StronglySorted String.le ks
    ∧ responseToLines dps
      = (λ k, mkPoint (parseInt k) (JsObject.get k dps)) <$> ks
    ∧ (∀ p, p ∈ responseToLines dps →
         ∃ k v, (k, v) ∈ dps ∧ p = mkPoint (parseInt k) (Some v))
    ∧ (∀ w, (w ≤ 15)%nat → numerals_of_width w dps →
         ∃ ns, timestamp <$> responseToLines dps = JNum <$> ns
               ∧ Forall exact_number ns
               ∧ ns ≡ₚ decimal_value <$> dps.*1
               ∧ StronglySorted Z.le ns
               ∧ (NoDup dps.*1 → StronglySorted Z.lt ns)).
Proof.
  exists (js_sort (JsObject.keys dps)).
  assert (Hperm : js_sort (JsObject.keys dps) ≡ₚ dps.*1)
    by by rewrite js_sort_perm, JsObject_keys_perm.
  split; [done|]. split; [apply js_sort_sorted|]. split; [done|]. split.
  - intros p (k & -> & Hk)%list_elem_of_fmap. rewrite Hperm in Hk.
    destruct (JsObject_get_elem k dps Hk) as (v & -> & Hin). by exists k, v.
  - intros w Hw15 Hw. unfold numerals_of_width in Hw. rewrite <-Hperm in Hw.
    exists (decimal_value <$> js_sort (JsObject.keys dps)).
    destruct (sorted_numerals_ascending w _ Hw (js_sort_sorted _)) as [Hle Hlt].
    split; [|split; [|split; [by rewrite Hperm|split; [done|]]]].
    + unfold responseToLines. rewrite <-!list_fmap_compose.
      apply Forall_fmap_ext_1. eapply Forall_impl; [exact Hw|].
      intros k [Hk _]. simpl. by apply parseInt_decimal.
    + rewrite Forall_fmap. eapply Forall_impl; [exact Hw|].
      intros k [Hk Hlen]. simpl. by apply (short_numeral_exact w).
    + intros Hnd. apply Hlt. by rewrite Hperm.
Qed.

End ResponseToLines.

(** ** The queries *)

Section QueryProperties.
Context {V : Type}.
Variable localConfig : Config.
Implicit Types (filter : Filter) (metric uri group : string).

(** The completion of a call, without its effects. *)
Local Abbreviation completion := snd (only parsing).

(** C5. A 400 answer, or a 500 answer with "No such name for " in the
    error message of its body, makes [getTimeSeriesRange] (through
    [queryRange]) succeed with an empty sequence; every other failure, of
    the transport or of the store, reaches the caller as a [TsdbError] that
    carries the cause. *)
Theorem getTimeSeriesRange_error_policy metric filter uri
    (http : string → HttpResult (Series V)) :
  queryRange_uri localConfig metric filter = Some uri →
  let h := http uri in
  let no_data := ∃ r, res h = Some r ∧ (is_bad_request r ∨ is_no_such_name r) in
  (no_data →
     completion (getTimeSeriesRange localConfig metric filter http)
     = Callback None [])
  ∧ (is_failure h → ¬ no_data →
     completion (getTimeSeriesRange localConfig metric filter http)
     = Callback (Some (mkTsdbError (error_cause h))) []).
Proof.
  intros Huri h no_data.
  unfold getTimeSeriesRange, queryRange. rewrite Huri. fold h.
  unfold queryRange_end. split.
  - intros (r & Hr & Hclass). rewrite Hr.
    assert (Hf : failed (err h) r = true).
    { apply failed_spec; [done|]. right. exists r. split; [done|].
      destruct Hclass as [(e & -> & _)|(e & m & -> & _)]; eauto. }
    rewrite Hf. apply queryRange_no_data_spec in Hclass. rewrite Hclass.
    reflexivity.
  - intros Hfail Hnd. destruct (res h) as [r|] eqn:Hr.
    + apply (failed_spec h r Hr) in Hfail. rewrite Hfail.
      destruct (queryRange_no_data r) eqn:Hq.
      * exfalso. apply Hnd. exists r. split; [done|].
        apply queryRange_no_data_spec. exact Hq.
      * reflexivity.
    + destruct Hfail as [[e He]|(r & Hr' & _)]; [|congruence].
      by rewrite He.
Qed.

(** C10. On a successful answer [getTimeSeriesRange] reports no error; it
    hands over points only where the body is an array of exactly one series
    (the points of that series), and an empty sequence for every other
    body, whatever data the body holds. *)
Theorem getTimeSeriesRange_single_series metric filter uri
    (http : string → HttpResult (Series V)) (r : Response (Series V)) :
  queryRange_uri localConfig metric filter = Some uri →
  is_success (http uri) r →
  ∃ pts,
    completion (getTimeSeriesRange localConfig metric filter http)
    = Callback None pts
    ∧ (pts ≠ [] → ∃ s, res_body r = BodyArray [s])
    ∧ (∀ s, res_body r = BodyArray [s] → pts = responseToLines (dps s))
    ∧ (∀ items, res_body r = BodyArray items → length items ≠ 1%nat →
       pts = []).
Proof.
  intros Huri (Herr & Hres & Hok).
  unfold getTimeSeriesRange, queryRange. rewrite Huri.
  unfold queryRange_end, failed. rewrite Hres, Herr, Hok. simpl.
  destruct (res_body r) as [|m|[|s [|s' items]]]; simpl;
    eexists; (split; [reflexivity|]); repeat split;
    try done; try (intros ? [=]; by subst); eauto.
Qed.

(** The object [getTimeSeriesRangeList] builds: a key holds the points of
    the last sub-series written under it. *)
Lemma grouped_lookup group (items : list (Series V))
    (retval0 : gmap string (list (Point V))) v :
  foldl (λ retval series,
    <[to_property_key (JsObject.get group (tags series))
      := responseToLines (dps series)]> retval) retval0 items !! v
  = match last (base.filter (λ s, group_value group s = v) items) with
    | Some s => Some (responseToLines (dps s))
    | None => retval0 !! v
    end.
Proof.
  induction items as [|s items IH] using rev_ind; [done|].
  rewrite foldl_snoc, filter_app, last_app.
  change (to_property_key (JsObject.get group (tags s)))
    with (group_value group s).
  rewrite filter_cons, filter_nil.
  destruct (decide (group_value group s = v)) as [<-|Hne]; simpl.
  - by rewrite lookup_insert_eq.
  - by rewrite lookup_insert_ne.
Qed.

Lemma ensure_group_tag_lookup filter group :
  lacks_group_tag filter group →
  f_tags (ensure_group_tag group filter) ≫= JsObject.get group
  = Some (JStr "*").
Proof.
  unfold lacks_group_tag, ensure_group_tag.
  destruct filter as [? ? ? ? [t|]]; simpl; intros [_ H]; rewrite ?H; simpl.
  - apply JsObject_get_set.
  - by rewrite decide_True.
Qed.

(** One request goes out per [queryRange], whatever comes back, as long as
    the callback asks for nothing itself. *)
Lemma queryRange_one_request {R} metric filter uri
    (http : string → HttpResult (Series V))
    (callback : option TsdbError → Body (Series V) → Eff (Completion R)) :
  queryRange_uri localConfig metric filter = Some uri →
  (∀ e b, (callback e b).1 = []) →
  http_requests (queryRange localConfig metric filter http callback).1 = [uri].
Proof.
  intros Huri Hcb. unfold queryRange, queryRange_end. rewrite Huri.
  destruct (res (http uri)) as [r|]; [|destruct (err (http uri))];
    [destruct (failed (err (http uri)) r), (queryRange_no_data r);
       try destruct (res_body r)|..];
    unfold eff_bind, emit, logTsdbRequest, eff_ret;
    repeat match goal with
    | |- context [callback ?e ?b] =>
        let H := fresh in
        pose proof (Hcb e b) as H; destruct (callback e b); simpl in H; subst
    end; reflexivity.
Qed.

(** What [getLatestTimeSeries] does with a 400 answer: it is normalised
    only where the body carries the "No such name for " message. *)
Lemma getLatestTimeSeries_bad_request metric tags
    (http : string → HttpResult (LastPoint V)) (r : Response (LastPoint V)) :
  let h := http (getLatestTimeSeries_uri localConfig metric tags) in
  res h = Some r → is_bad_request r →
  completion (getLatestTimeSeries localConfig metric tags http)
  = if match res_body r with
       | BodyObject (Some m) => contains "No such name for " m
       | _ => false
       end
    then Callback None None
    else Callback (Some (mkTsdbError (error_cause h))) None.
Proof.
  intros h Hres (e & He & H400).
  unfold getLatestTimeSeries, getLatestTimeSeries_end. fold h.
  rewrite Hres. unfold failed, getLatestTimeSeries_no_data. rewrite He.
  rewrite (bool_decide_eq_true_2 (is_Some (Some e))) by eauto.
  rewrite orb_true_r, (bool_decide_eq_true_2 _ H400). simpl.
  destruct (res_body r) as [|[m|]|]; try reflexivity.
  destruct (contains "No such name for " m) eqn:Hm.
  - rewrite bool_decide_eq_true_2; [done|].
    eapply contains_nonempty; [|exact Hm]. done.
  - by rewrite andb_false_r.
Qed.

(** The timestamp [getLatestTimeSeries] hands over is the String that
    [toFixed(0)] makes of the seconds, never a Number. *)
Lemma getLatestTimeSeries_timestamp metric tags
    (http : string → HttpResult (LastPoint V)) (r : Response (LastPoint V))
    point rest :
  is_success (http (getLatestTimeSeries_uri localConfig metric tags)) r →
  res_body r = BodyArray (point :: rest) →
  ∃ p, completion (getLatestTimeSeries localConfig metric tags http)
       = Callback None (Some p)
       ∧ timestamp p = JStr (toFixed0 (lp_timestamp point) 1000)
       ∧ is_number (timestamp p) = false
       ∧ value p = Some (lp_value point).
Proof.
  intros (Herr & Hres & Hok) Hbody.
  unfold getLatestTimeSeries, getLatestTimeSeries_end, failed.
  rewrite Hres, Herr, Hok, Hbody. simpl. eexists. split; [reflexivity|done].
Qed.

End QueryProperties.


(** ** The socket: [connect] and [addTimeSeries] *)

Section SocketProperties.
Implicit Types (st : State) (a : Action) (env : Env) (s : nat).

Lemma effects_since_app st st' es :
  trace st' = (trace st ++ es)%list → effects_since st st' = es.
Proof. intros H. unfold effects_since. rewrite H. apply drop_app_length. Qed.

Lemma update_socket_lookup s f st sock :
  sockets st !! s = Some sock →
  sockets (update_socket s f st) !! s = Some (f sock).
Proof.
  intros Hs. unfold update_socket. rewrite Hs. simpl.
  apply list_lookup_insert_eq. by eapply lookup_lt_Some.
Qed.

Lemma update_socket_frame s f st :
  localConfig (update_socket s f st) = localConfig st
  ∧ opentsdb (update_socket s f st) = opentsdb st
  ∧ proc (update_socket s f st) = proc st
  ∧ trace (update_socket s f st) = trace st.
Proof. unfold update_socket. by destruct (sockets st !! s). Qed.

(** A process that is gone does nothing more. *)
Lemma run_not_running st actions :
  proc st ≠ Running → run st actions = st.
Proof.
  intros Hp. induction actions as [|a actions IH]; [done|].
  unfold run in *. simpl. unfold step at 2.
  destruct (proc st) eqn:E; [done|..]; exact IH.
Qed.

(** The write path of [sendTimeSeries], on the socket [opentsdb] holds. *)
Lemma sendTimeSeries_write metric callback env st s sock :
  opentsdb st = Some s → sockets st !! s = Some sock →
  let st' := sendTimeSeries metric callback None env st in
  proc st' = proc st
  ∧ opentsdb st' = Some s
  ∧ localConfig st' = localConfig st
  ∧ sockets st' = <[s := mkSocket (phase sock) (writable sock)
                          (on_connect sock) (pending sock ++ [callback])]>
                    (sockets st)
  ∧ trace st'
    = (trace st ++ SocketWrite s (put_line metric)
         :: (if write_returns env
             then [StatsTiming "opentsdb.write.time"]
             else [StatsIncrement "opentsdb.write.delayed";
                   LogInfo "OpenTSDB data queued for writing"]))%list.
Proof.
  intros Ho Hs. unfold sendTimeSeries, update_socket. rewrite Ho, Hs.
  destruct (write_returns env); simpl; rewrite <-?app_assoc; by rewrite ?Ho.
Qed.

(** The transport works off the writes under way in their order. *)
Lemma run_writes_finished st s sock (errs : list (option string)) rest :
  proc st = Running → sockets st !! s = Some sock →
  pending sock = (take (length errs) (pending sock) ++ rest)%list →
  (length errs ≤ length (pending sock))%nat →
  let st' := run st (WriteFinished s <$> errs) in
  proc st' = Running
  ∧ opentsdb st' = opentsdb st
  ∧ ∃ sock', sockets st' !! s = Some sock' ∧ pending sock' = rest.
Proof.
  revert st sock. induction errs as [|e errs IH]; intros st sock Hp Hs Hpend Hlen.
  - simpl in *. repeat split; try done. eauto.
  - destruct (pending sock) as [|c ws] eqn:Hws; [simpl in Hlen; lia|].
    simpl in Hpend, Hlen. injection Hpend as Hpend.
    unfold run. rewrite fmap_cons. cbn [foldl].
    set (st1 := step st (WriteFinished s e)).
    assert (H1 : proc st1 = Running ∧ opentsdb st1 = opentsdb st
                 ∧ sockets st1 !! s
                   = Some (mkSocket (phase sock) (writable sock)
                                    (on_connect sock) ws)).
    { subst st1. unfold step. rewrite Hp, Hs, Hws.
      destruct (update_socket_frame s
        (λ sock, mkSocket (phase sock) (writable sock) (on_connect sock) ws) st)
        as (_ & Ho & Hpr & _).
      unfold record. cbn [proc opentsdb sockets]. rewrite Hpr, Ho.
      repeat split; try done.
      exact (update_socket_lookup s _ st sock Hs). }
    destruct H1 as (Hp1 & Ho1 & Hs1).
    destruct (IH st1 _ Hp1 Hs1) as (? & ? & ?); simpl; [done|lia|].
    fold (run st1 (WriteFinished s <$> errs)).
    repeat split; [done|congruence|done].
Qed.

(** C7. A write on an open, writable connection whose [socket.write]
    returns false surfaces no error: the process runs on, the turn leaves
    the written line, the [opentsdb.write.delayed] count and the
    "queued for writing" message and fires no callback, and the caller's
    callback waits with the transport, which fires it without error once
    it has written the data queued before and this line. *)
Theorem addTimeSeries_delayed_write st s sock metric callback env :
  proc st = Running → connection_open st s sock →
  write_returns env = false →
  let st' := step st (CallAddTimeSeries metric callback env) in
  proc st' = Running
  ∧ effects_since st st'
    = [SocketWrite s (put_line metric);
       StatsIncrement "opentsdb.write.delayed";
       LogInfo "OpenTSDB data queued for writing"]
  ∧ pending <$> sockets st' !! s = Some (pending sock ++ [callback])%list
  ∧ ∀ errs, length errs = length (pending sock) →
      let st'' := run st' (WriteFinished s <$> errs) in
      effects_since st'' (step st'' (WriteFinished s None))
      = [CallbackFired callback None].
Proof.
  intros Hp (Ho & Hs & Hw) Hret st'.
  assert (Hstep : st' = sendTimeSeries metric callback None env st).
  { subst st'. unfold step, addTimeSeries, needs_reconnect.
    by rewrite Hp, Ho, Hs, Hw. }
  destruct (sendTimeSeries_write metric callback env st s sock Ho Hs)
    as (Hp' & Ho' & _ & Hsock & Htr).
  rewrite <-Hstep, Hret in *. clear Hstep.
  assert (Hs' : sockets st' !! s
                = Some (mkSocket (phase sock) (writable sock) (on_connect sock)
                                 (pending sock ++ [callback]))).
  { rewrite Hsock. apply list_lookup_insert_eq. by eapply lookup_lt_Some. }
  split; [congruence|]. split; [by apply effects_since_app|].
  split; [by rewrite Hs'|].
  intros errs Hlen st''.
  destruct (run_writes_finished st' s _ errs [callback] ltac:(congruence) Hs')
    as (Hp'' & _ & sock'' & Hs'' & Hpend'').
  { simpl. by rewrite Hlen, take_app_length. }
  { simpl. rewrite length_app. lia. }
  fold st'' in Hp'', Hs''. apply effects_since_app.
  unfold step. rewrite Hp'', Hs'', Hpend''. simpl.
  by destruct (update_socket_frame s
    (λ sock, mkSocket (phase sock) (writable sock) (on_connect sock) []) st'')
    as (_ & _ & _ & ->).
Qed.

Lemma connection_down_needs_reconnect st :
  connection_down st → needs_reconnect st = true.
Proof.
  unfold connection_down, needs_reconnect.
  destruct (opentsdb st) as [s|]; [|done]. by intros (sock & -> & ->).
Qed.

(** A reconnecting write whose [net.createConnection] does not throw
    leaves a new socket, which is connecting, and nothing else. *)
Lemma addTimeSeries_reconnects st cfg metric callback env :
  proc st = Running → connection_down st → localConfig st = Some cfg →
  create_throws env = None →
  let st' := step st (CallAddTimeSeries metric callback env) in
  proc st' = Running
  ∧ localConfig st' = Some cfg
  ∧ opentsdb st' = opentsdb st
  ∧ sockets st'
    = (sockets st
       ++ [mkSocket Connecting true (SendTimeSeries metric callback) []])%list
  ∧ trace st' = (trace st ++ [CreateConnection (port cfg) (host cfg)])%list.
Proof.
  intros Hp Hdown%connection_down_needs_reconnect Hcfg Henv.
  cbn zeta. unfold step, addTimeSeries, connect.
  by rewrite Hp, Hdown, Hcfg, Henv.
Qed.

Lemma addTimeSeries_reconnects_down st cfg a :
  proc st = Running → connection_down st → localConfig st = Some cfg →
  is_write_call a →
  proc (step st a) = Running
  ∧ connection_down (step st a)
  ∧ localConfig (step st a) = Some cfg
  ∧ trace (step st a)
    = (trace st ++ [CreateConnection (port cfg) (host cfg)])%list.
Proof.
  intros Hp Hdown Hcfg (metric & callback & env & -> & Henv).
  destruct (addTimeSeries_reconnects st cfg metric callback env)
    as (Hp' & Hcfg' & Ho' & Hs' & Htr'); try done.
  repeat split; try done.
  unfold connection_down in *. rewrite Ho'. destruct (opentsdb st) as [s|]; [|done].
  destruct Hdown as (sock & Hs & Hw). exists sock. split; [|done].
  rewrite Hs', lookup_app_l; [done|]. by eapply lookup_lt_Some.
Qed.

Lemma connection_attempts_app es1 es2 :
  connection_attempts (es1 ++ es2)
  = (connection_attempts es1 + connection_attempts es2)%nat.
Proof. unfold connection_attempts. by rewrite omap_app, length_app. Qed.

Lemma writes_while_down st cfg (calls : list Action) :
  proc st = Running → connection_down st → localConfig st = Some cfg →
  Forall is_write_call calls →
  ∃ es, trace (run st calls) = (trace st ++ es)%list
        ∧ connection_attempts es = length calls
        ∧ connection_down (run st calls)
        ∧ proc (run st calls) = Running.
Proof.
  intros Hp Hdown Hcfg Hcalls. revert st Hp Hdown Hcfg.
  induction Hcalls as [|a calls Ha _ IH]; intros st Hp Hdown Hcfg.
  - exists []. by rewrite app_nil_r.
  - destruct (addTimeSeries_reconnects_down st cfg a)
      as (Hp1 & Hdown1 & Hcfg1 & Htr1); try done.
    destruct (IH _ Hp1 Hdown1 Hcfg1) as (es & Htr & Hn & Hdown' & Hp').
    exists (CreateConnection (port cfg) (host cfg) :: es).
    unfold run in *. cbn [foldl]. rewrite Htr, Htr1, <-app_assoc.
    repeat split; try done. simpl. by rewrite <-Hn.
Qed.

(** A write that finds the connection absent or unwritable opens a new
    one; once this one is established the line is written on it, with the
    caller's callback; an error of the transport on that write is then
    handed to this callback. *)
Theorem addTimeSeries_reconnect_write_error st cfg metric callback env env' err :
  proc st = Running → connection_down st → localConfig st = Some cfg →
  create_throws env = None →
  let n := length (sockets st) in
  let st1 := step st (CallAddTimeSeries metric callback env) in
  let st2 := step st1 (SocketConnected n env') in
  let st3 := step st2 (WriteFinished n (Some err)) in
  effects_since st st1 = [CreateConnection (port cfg) (host cfg)]
  ∧ proc st2 = Running ∧ opentsdb st2 = Some n
  ∧ effects_since st1 st2
    = LogInfo "Connected to OpenTSDB."
      :: SocketWrite n (put_line metric)
      :: (if write_returns env'
          then [StatsTiming "opentsdb.write.time"]
          else [StatsIncrement "opentsdb.write.delayed";
                LogInfo "OpenTSDB data queued for writing"])
  ∧ effects_since st2 st3 = [CallbackFired callback (Some err)]
  ∧ proc st3 = Running.
Proof.
  intros Hp Hdown Hcfg Henv n st1 st2 st3.
  destruct (addTimeSeries_reconnects st cfg metric callback env)
    as (Hp1 & Hcfg1 & Ho1 & Hs1 & Htr1); try done. fold st1 in Hp1, Hcfg1, Ho1, Hs1, Htr1.
  set (new := mkSocket Connecting true (SendTimeSeries metric callback) []) in *.
  assert (Hn : sockets st1 !! n = Some new).
  { rewrite Hs1. by apply list_lookup_middle. }
  (* the turn of the 'connect' event *)
  set (est := update_socket n
                (λ sock, mkSocket Established true (on_connect sock) (pending sock))
                (set_opentsdb (Some n)
                   (record [LogInfo "Connected to OpenTSDB."] st1))).
  assert (Hst2 : st2 = sendTimeSeries metric callback None env' est).
  { subst st2. unfold step. rewrite Hp1, Hn. reflexivity. }
  assert (Hest : sockets est !! n
                 = Some (mkSocket Established true
                           (SendTimeSeries metric callback) [])).
  { subst est.
    exact (update_socket_lookup n _
             (set_opentsdb (Some n)
                (record [LogInfo "Connected to OpenTSDB."] st1)) new Hn). }
  destruct (update_socket_frame n
              (λ sock, mkSocket Established true (on_connect sock) (pending sock))
              (set_opentsdb (Some n)
                 (record [LogInfo "Connected to OpenTSDB."] st1)))
    as (_ & Hoe & Hpe & Htre). fold est in Hoe, Hpe, Htre.
  simpl in Hoe, Hpe, Htre.
  destruct (sendTimeSeries_write metric callback env' est n _ Hoe Hest)
    as (Hp2 & Ho2 & _ & Hs2 & Htr2).
  rewrite <-Hst2 in Hp2, Ho2, Hs2, Htr2.
  assert (Hn2 : sockets st2 !! n
                = Some (mkSocket Established true
                          (SendTimeSeries metric callback) [callback])).
  { rewrite Hs2. apply list_lookup_insert_eq. by eapply lookup_lt_Some. }
  split; [by apply effects_since_app|].
  split; [congruence|]. split; [done|]. split.
  { apply effects_since_app. rewrite Htr2, Htre, <-app_assoc. reflexivity. }
  assert (Hrun2 : proc st2 = Running) by congruence.
  subst st3. unfold step. rewrite Hrun2, Hn2.
  cbn [pending].
  destruct (update_socket_frame n
    (λ sock, mkSocket (phase sock) (writable sock) (on_connect sock) []) st2)
    as (_ & _ & Hp3 & Htr3).
  split; [apply effects_since_app; unfold record; cbn [trace]; by rewrite Htr3|].
  unfold record. cbn [proc]. congruence.
Qed.

Lemma trace_update_socket s f st :
  trace (update_socket s f st) = trace st.
Proof. apply update_socket_frame. Qed.

Lemma opentsdb_update_socket s f st :
  opentsdb (update_socket s f st) = opentsdb st.
Proof. apply update_socket_frame. Qed.

(** Every turn only adds to the trace, and the one turn in which a callback
    is handed an error is the end of a write that failed. *)
Lemma step_effects st a :
  ∃ es, trace (step st a) = (trace st ++ es)%list
        ∧ ∀ callback err, CallbackFired callback (Some err) ∈ es →
            ∃ s, a = WriteFinished s (Some err).
Proof.
  assert (Hnil : ∃ es, trace st = (trace st ++ es)%list
                 ∧ ∀ callback err, CallbackFired callback (Some err) ∈ es →
                     ∃ s, a = WriteFinished s (Some err)).
  { exists []. rewrite app_nil_r. split; [done|]. by intros ?? ?%elem_of_nil. }
  unfold step, addTimeSeries, connect, connectionEstablished, networkError,
    sendTimeSeries, connectionError.
  repeat case_match; try exact Hnil; subst;
    unfold record, set_proc, set_opentsdb, set_localConfig, set_sockets;
    cbn [trace opentsdb localConfig proc sockets] in *;
    rewrite ?trace_update_socket, ?opentsdb_update_socket in *;
    cbn [trace opentsdb localConfig proc sockets] in *;
    rewrite ?trace_update_socket in *;
    simplify_eq; rewrite <-?app_assoc; try exact Hnil;
    (eexists; split; [reflexivity|]);
    intros cb e Hin; repeat (apply elem_of_cons in Hin as [Hin|Hin]; simplify_eq);
    try (by apply elem_of_nil in Hin); eauto.
Qed.

(** C8. A connection that fails ends the process with [process.exit(1)]:
    where a socket that is still connecting reports an error, and where
    [net.createConnection] throws, at startup as in the reconnect of a
    write. The turn leaves the failure count, the fatal message and the
    exit: no callback is fired and no new connection is tried. A process
    that exited takes no further turn; and in no turn at all is a callback
    handed an error, but at the end of a write that failed. *)
Theorem connect_failure_is_fatal st err :
  proc st = Running →
  (∀ s sock, sockets st !! s = Some sock → phase sock = Connecting →
     proc (step st (SocketError s err)) = Exited 1
     ∧ effects_since st (step st (SocketError s err)) = fatal_effects err)
  ∧ (∀ nconf callback env, create_throws env = Some err →
     proc (step st (CallConnect nconf callback env)) = Exited 1
     ∧ effects_since st (step st (CallConnect nconf callback env))
       = fatal_effects err)
  ∧ (∀ metric callback env,
     connection_down st → is_Some (localConfig st) →
     create_throws env = Some err →
     proc (step st (CallAddTimeSeries metric callback env)) = Exited 1
     ∧ effects_since st (step st (CallAddTimeSeries metric callback env))
       = fatal_effects err)
  ∧ (∀ metric callback env,
     connection_down st → localConfig st = None →
     proc (step st (CallAddTimeSeries metric callback env)) = Exited 1)
  ∧ (∀ callback e, CallbackFired callback e ∉ fatal_effects err)
  ∧ connection_attempts (fatal_effects err) = 0%nat
  ∧ (∀ st' code actions, proc st' = Exited code → run st' actions = st')
  ∧ (∀ a callback e,
     CallbackFired callback (Some e) ∈ effects_since st (step st a) →
     ∃ s, a = WriteFinished s (Some e)).
Proof.
  intros Hp. split; [|split; [|split; [|split; [|split; [|split; [|split]]]]]].
  - intros s sock Hs Hph.
    assert (Hst : step st (SocketError s err) = connectionError err st).
    { unfold step. by rewrite Hp, Hs, Hph. }
    rewrite Hst. split; [done|]. by apply effects_since_app.
  - intros nconf callback env Henv.
    assert (Hst : step st (CallConnect nconf callback env)
                  = connectionError err (set_localConfig (Some nconf) st)).
    { unfold step, connect. by rewrite Hp, Henv. }
    rewrite Hst. split; [done|]. by apply effects_since_app.
  - intros metric callback env Hdown%connection_down_needs_reconnect
      [cfg Hcfg] Henv.
    assert (Hst : step st (CallAddTimeSeries metric callback env)
                  = connectionError err (set_localConfig (Some cfg) st)).
    { unfold step, addTimeSeries, connect. by rewrite Hp, Hdown, Hcfg, Henv. }
    rewrite Hst. split; [done|]. by apply effects_since_app.
  - intros metric callback env Hdown%connection_down_needs_reconnect Hcfg.
    unfold step, addTimeSeries, connect. by rewrite Hp, Hdown, Hcfg.
  - intros callback e Hin. unfold fatal_effects in Hin.
    repeat (apply elem_of_cons in Hin as [Hin|Hin]; [done|]).
    by apply elem_of_nil in Hin.
  - reflexivity.
  - intros st' code actions Hexit. apply run_not_running. by rewrite Hexit.
  - intros a callback e Hin.
    destruct (step_effects st a) as (es & Htr & Hes).
    rewrite (effects_since_app _ _ _ Htr) in Hin. by eapply Hes.
Qed.

(** C9, as the code has it. Every write made while the connection is
    absent or unwritable opens a connection of its own: after [n] such
    calls, no socket event between them, [n] connections were tried, and
    the connection is still down. *)
Theorem addTimeSeries_reconnects_per_call st cfg (calls : list Action) :
  proc st = Running → connection_down st → localConfig st = Some cfg →
  Forall is_write_call calls →
  connection_attempts (effects_since st (run st calls)) = length calls
  ∧ connection_down (run st calls).
Proof.
  intros Hp Hdown Hcfg Hcalls.
  destruct (writes_while_down st cfg calls Hp Hdown Hcfg Hcalls)
    as (es & Htr & Hn & Hdown' & _).
  by rewrite (effects_since_app _ _ _ Htr).
Qed.

End SocketProperties.

(** ** The operations on concrete answers and events *)

Section RunProperties.
Import Runs.

(** C2. On a 400 answer that does not carry the "No such name for "
    message [getLatestTimeSeries] hands its caller an error, where
    [getTimeSeriesRange], through [queryRange], reports an empty result. *)
Theorem getLatestTimeSeries_400_is_an_error :
  (getLatestTimeSeries (V:=Z) cfg "power" hpc_tags (λ _, bad_request)).2
  = Callback (Some (mkTsdbError "Error: Bad Request")) None
  ∧ (getTimeSeriesRange (V:=Z) cfg "power" day_filter (λ _, bad_request)).2
    = Callback None [].
Proof. split; vm_compute; reflexivity. Qed.

(** C3. For the store timestamp 1700000000000 (milliseconds)
    [getLatestTimeSeries] hands over the String "1700000000", not the
    Number 1700000000. *)
Theorem getLatestTimeSeries_timestamp_is_a_string :
  ∃ p,
    (getLatestTimeSeries cfg "power" hpc_tags (λ _, last_answer)).2
    = Callback None (Some p)
    ∧ timestamp p = JStr "1700000000"
    ∧ timestamp p ≠ JNum 1700000000
    ∧ is_number (timestamp p) = false.
Proof. eexists. split; [vm_compute; reflexivity|]. by repeat split. Qed.

(** C1. On the raw point map [{"100": 5, "20": 3}] [responseToLines]
    hands over the point of 100 before the point of 20, not the ascending
    numeric order the claim states: [sort()] without a comparator puts
    "100" before "20". *)
Lemma responseToLines_not_numerically_ordered :
  responseToLines two_points
  = [mkPoint (JNum 100) (Some 5); mkPoint (JNum 20) (Some 3)]
  ∧ responseToLines two_points
    ≠ [mkPoint (JNum 20) (Some 3); mkPoint (JNum 100) (Some 5)].
Proof. split; [vm_compute; reflexivity|]. vm_compute. discriminate. Qed.

(** On timestamps of one width the order is the numeric one. *)
Lemma responseToLines_sorted_by_key_witness :
  numerals_of_width 10 minute_points
  ∧ ∃ ns, timestamp <$> responseToLines minute_points = JNum <$> ns
          ∧ StronglySorted Z.lt ns.
Proof.
  assert (Hw : numerals_of_width 10 minute_points).
  { repeat constructor. }
  split; [exact Hw|].
  destruct (responseToLines_sorted_by_key minute_points)
    as (ks & _ & _ & _ & _ & Hnum).
  destruct (Hnum 10%nat ltac:(lia) Hw) as (ns & Hts & _ & _ & _ & Hlt).
  exists ns. split; [exact Hts|]. apply Hlt. compute_done.
Defined.

Lemma getTimeSeriesRange_error_policy_witness :
  (getTimeSeriesRange (V:=Z) cfg "power" day_filter (λ _, bad_request)).2
  = Callback None [].
Proof.
  destruct (getTimeSeriesRange_error_policy (V:=Z) cfg "power" day_filter
              day_uri (λ _, bad_request)) as [Hnone _].
  - vm_compute. reflexivity.
  - apply Hnone. eexists. split; [reflexivity|].
    left. eexists. split; reflexivity.
Defined.

(** An answer with two sub-series, as a wildcard tag brings back. *)
Lemma getTimeSeriesRange_single_series_witness :
  ∃ pts,
    (getTimeSeriesRange cfg "power" day_filter (λ _, two_series)).2
    = Callback None pts
    ∧ pts = [].
Proof.
  destruct (getTimeSeriesRange_single_series (V:=Z) cfg "power" day_filter
              day_uri (λ _, two_series)
              (mkResponse None (BodyArray [series_a; series_b])))
    as (pts & Hrun & _ & _ & Hmany).
  - vm_compute. reflexivity.
  - by repeat split.
  - exists pts. split; [exact Hrun|]. by apply (Hmany [series_a; series_b]).
Defined.

Lemma addTimeSeries_delayed_write_witness :
  effects_since connected
    (step connected (CallAddTimeSeries "power 1700000000 5" 1 (mkEnv None false)))
  = [SocketWrite 0 (put_line "power 1700000000 5");
     StatsIncrement "opentsdb.write.delayed";
     LogInfo "OpenTSDB data queued for writing"].
Proof.
  refine (proj1 (proj2 (addTimeSeries_delayed_write connected 0
            (mkSocket Established true (AppCallback 0) [])
            "power 1700000000 5" 1 (mkEnv None false) _ _ _))); try reflexivity.
  by repeat split.
Defined.

Lemma connect_failure_is_fatal_witness :
  proc (step initial (CallConnect cfg 0 (mkEnv (Some "EMFILE") true)))
  = Exited 1.
Proof.
  refine (proj1 (proj1 (proj2 (connect_failure_is_fatal initial "EMFILE" _))
                   cfg 0%nat (mkEnv (Some "EMFILE") true) _)); reflexivity.
Defined.

Lemma addTimeSeries_reconnects_per_call_witness :
  connection_attempts
    (effects_since lost_connection
       (run lost_connection
          [CallAddTimeSeries "a 1 2" 1 calm; CallAddTimeSeries "b 1 2" 2 calm;
           CallAddTimeSeries "c 1 2" 3 calm]))
  = 3%nat.
Proof.
  refine (proj1 (addTimeSeries_reconnects_per_call lost_connection cfg
                   [CallAddTimeSeries "a 1 2" 1 calm;
                    CallAddTimeSeries "b 1 2" 2 calm;
                    CallAddTimeSeries "c 1 2" 3 calm] _ _ _ _));
    try done.
  repeat constructor; by eexists _, _, _.
Defined.

(** Two writes while the connection is down: two connections are tried,
    not one. *)
Lemma concurrent_writes_reconnect_twice :
  connection_down lost_connection
  ∧ connection_attempts
      (effects_since lost_connection
         (run lost_connection
            [CallAddTimeSeries "a 1 2" 1 calm; CallAddTimeSeries "b 1 2" 2 calm]))
    = 2%nat
  ∧ connection_attempts
      (effects_since lost_connection
         (run lost_connection
            [CallAddTimeSeries "a 1 2" 1 calm; CallAddTimeSeries "b 1 2" 2 calm]))
    ≠ 1%nat.
Proof. split; [done|]. split; [vm_compute; reflexivity|]. vm_compute. lia. Qed.

End RunProperties.

(** * Further properties of the module *)

(** ** [hashToString] *)

Section HashToString.
Implicit Types (obj : JsObject.t JsVal) (acc k e : string).

Lemma string_app_assoc (a b c : string) : (a +:+ b) +:+ c = a +:+ b +:+ c.
Proof.
  induction a as [|x a IH]; [done|].
  change ((String x a +:+ b) +:+ c) with (String x ((a +:+ b) +:+ c)).
  by rewrite IH.
Qed.

Lemma string_app_nonempty_r (a b : string) : b ≠ "" → a +:+ b ≠ "".
Proof. by destruct a, b. Qed.

Lemma tag_entry_nonempty obj k e : tag_entry obj k = Some e → e ≠ "".
Proof.
  unfold tag_entry. destruct (JsObject.get k obj) as [[| |v]|]; intros [=<-].
  by apply string_app_nonempty_r.
Qed.

Lemma hashToString_step_entry obj acc k :
  hashToString_step obj acc k
  = match tag_entry obj k with
    | Some e => (if decide (acc ≠ "") then acc +:+ "," else acc) +:+ e
    | None => acc
    end.
Proof.
  unfold hashToString_step, tag_entry.
  by destruct (JsObject.get k obj) as [[| |v]|].
Qed.

Lemma join_cons sep e (es : list string) :
  join sep (e :: es)
  = match es with [] => e | _ => e +:+ sep +:+ join sep es end.
Proof. by destruct es. Qed.

Lemma hashToString_foldl obj (l : list string) acc :
  foldl (hashToString_step obj) acc l
  = match omap (tag_entry obj) l with
    | [] => acc
    | es => if decide (acc ≠ "") then acc +:+ "," +:+ join "," es
            else join "," es
    end.
Proof.
  revert acc. induction l as [|k l IH]; intros acc; [done|].
  cbn [foldl omap list_omap]. rewrite IH, hashToString_step_entry.
  destruct (tag_entry obj k) as [e|] eqn:He; [|done].
  apply tag_entry_nonempty in He. rewrite join_cons.
  set (acc' := (if decide (acc ≠ "") then acc +:+ "," else acc) +:+ e).
  assert (Hacc' : acc' ≠ "") by by apply string_app_nonempty_r.
  destruct (omap (tag_entry obj) l) as [|e' es]; subst acc'.
  - destruct (decide (acc ≠ "")) as [?| ->%dec_stable];
      [by rewrite string_app_assoc|done].
  - rewrite decide_True by done.
    destruct (decide (acc ≠ "")) as [?| ->%dec_stable];
      [by rewrite !string_app_assoc|done].
Qed.


End HashToString.

(** ** [responseToLines], beyond the order *)

Section ResponseToLinesMore.
Context {V : Type}.
Implicit Types (dps : JsObject.t V) (k : string) (v : V).

Lemma JsObject_get_NoDup dps k v :
  NoDup dps.*1 → (k, v) ∈ dps → JsObject.get k dps = Some v.
Proof.
  induction dps as [|[k' v'] dps IH]; [by intros _ ?%elem_of_nil|].
  rewrite fmap_cons. intros [Hk' Hnd]%NoDup_cons [[= -> ->]|Hin]%elem_of_cons;
    simpl.
  - by rewrite decide_True.
  - rewrite decide_False; [by apply IH|].
    intros ->. apply Hk'. apply list_elem_of_fmap. by exists (k, v).
Qed.

Lemma JsObject_get_None dps k : k ∉ dps.*1 → JsObject.get k dps = None.
Proof.
  induction dps as [|[k' v'] dps IH]; [done|].
  rewrite fmap_cons, not_elem_of_cons. intros [Hne Hk]. simpl.
  rewrite decide_False by done. by apply IH.
Qed.

(** What a key holds does not hang on where the property stands. *)
Lemma JsObject_get_perm dps1 dps2 k :
  NoDup dps1.*1 → dps1 ≡ₚ dps2 →
  JsObject.get k dps1 = JsObject.get k dps2.
Proof.
  intros Hnd Hp. destruct (decide (k ∈ dps1.*1)) as [Hin|Hout].
  - destruct (JsObject_get_elem k dps1 Hin) as (v & -> & Hv). symmetry.
    apply JsObject_get_NoDup; [by rewrite <-Hp|by rewrite <-Hp].
  - rewrite (JsObject_get_None dps1 k Hout). symmetry.
    apply JsObject_get_None. by rewrite <-Hp.
Qed.

(** The points [responseToLines] hands over do not hang on the order in
    which the raw point map lists its properties. *)
Theorem responseToLines_order_independent dps1 dps2 :
  NoDup dps1.*1 → dps1 ≡ₚ dps2 →
  responseToLines dps1 = responseToLines dps2.
Proof.
  intros Hnd Hp. unfold responseToLines.
  assert (Hkeys : js_sort (JsObject.keys dps1) = js_sort (JsObject.keys dps2)).
  { apply js_sort_unique. by rewrite !JsObject_keys_perm, Hp. }
  rewrite <-Hkeys. apply list_fmap_ext. intros _ k _.
  by rewrite (JsObject_get_perm dps1 dps2 k Hnd Hp).
Qed.

(** No point is lost or made up: [responseToLines] hands over as many
    points as the raw point map has properties, and every property shows
    up as the point of its key and its value. *)
Theorem responseToLines_complete dps :
  NoDup dps.*1 →
  length (responseToLines dps) = length dps
  ∧ ∀ k v, (k, v) ∈ dps → mkPoint (parseInt k) (Some v) ∈ responseToLines dps.
Proof.
  intros Hnd. unfold responseToLines. split.
  - by rewrite length_fmap, js_sort_perm, JsObject_keys_perm, length_fmap.
  - intros k v Hin. apply list_elem_of_fmap. exists k.
    rewrite (JsObject_get_NoDup dps k v Hnd Hin). split; [done|].
    rewrite js_sort_perm, JsObject_keys_perm.
    apply list_elem_of_fmap. by exists (k, v).
Qed.

End ResponseToLinesMore.

(** ** [getLatestTimeSeries] *)

Section LatestProperties.
Context {V : Type}.
Variable cfg : Config.

Lemma getLatestTimeSeries_no_data_spec {A} (r : Response A) :
  getLatestTimeSeries_no_data r = true ↔ is_unknown_series r.
Proof.
  unfold getLatestTimeSeries_no_data, is_unknown_series. split.
  - destruct (res_error r) as [e|] eqn:He; [|done].
    intros [Hst Hm]%andb_prop.
    destruct (res_body r) as [|[m|]|]; try done.
    apply andb_prop in Hm as [_ Hm]. exists e, m.
    apply orb_prop in Hst. rewrite !bool_decide_eq_true in Hst. done.
  - intros (e & m & -> & Hst & -> & Hm).
    rewrite !andb_true_iff, orb_true_iff, !bool_decide_eq_true.
    repeat split; [done| |done]. eapply contains_nonempty; [|exact Hm]. done.
Qed.


(** *** The seconds [getLatestTimeSeries] hands over *)

Lemma pretty_N_char_digit (d : N) :
  (d < 10)%N → digit_val 10 (pretty_N_char d) = Some (Z.of_N d).
Proof.
  intros Hd.
  assert (d = 0 ∨ d = 1 ∨ d = 2 ∨ d = 3 ∨ d = 4 ∨ d = 5 ∨ d = 6 ∨ d = 7
          ∨ d = 8 ∨ d = 9)%N as Hcases by lia.
  repeat destruct Hcases as [->|Hcases]; try reflexivity. by subst.
Qed.

Lemma pretty_N_go_decimal (x : N) (s : string) :
  all_decimal s = true →
  all_decimal (pretty_N_go x s) = true
  ∧ decimal_value (pretty_N_go x s)
    = Z.of_N x * 10 ^ Z.of_nat (String.length s) + decimal_value s.
Proof.
  revert s. induction (N.lt_wf_0 x) as [x _ IH]. intros s Hs.
  destruct (decide (x = 0)%N) as [->|Hx].
  { rewrite pretty_N_go_0. split; [done|]. lia. }
  rewrite pretty_N_go_step by lia.
  assert (Hd : (x `mod` 10 < 10)%N) by (apply N.mod_lt; lia).
  pose proof (pretty_N_char_digit _ Hd) as Hdig.
  destruct (IH (x `div` 10)%N) with
    (s := String (pretty_N_char (x `mod` 10)) s) as [Hall Hval].
  - apply N.div_lt; lia.
  - apply all_decimal_cons. eauto.
  - split; [done|]. rewrite Hval.
    rewrite (decimal_value_cons _ _ _ Hdig Hs). cbn [String.length].
    replace (Z.of_nat (S (String.length s)))
      with (Z.succ (Z.of_nat (String.length s))) by lia.
    rewrite Z.pow_succ_r by lia.
    pose proof (N.div_mod x 10 ltac:(lia)) as Hdm.
    assert (Z.of_N x = 10 * Z.of_N (x `div` 10) + Z.of_N (x `mod` 10)) as ->
      by lia.
    lia.
Qed.

(** The decimal numeral of a natural number denotes this number. *)
Lemma pretty_decimal (n : Z) :
  0 ≤ n → is_decimal (pretty n) = true ∧ decimal_value (pretty n) = n.
Proof.
  intros Hn. destruct n as [|p|p]; [done| |lia].
  change (pretty (Z.pos p)) with (pretty (N.pos p)).
  unfold pretty, pretty_N. rewrite decide_False by done.
  destruct (pretty_N_go_decimal (N.pos p) "" eq_refl) as [Hall Hval].
  change (Z.of_nat (String.length "")) with 0 in Hval.
  change (decimal_value "") with 0 in Hval.
  change (Z.of_N (N.pos p)) with (Z.pos p) in Hval.
  rewrite Z.pow_0_r, Z.mul_1_r, Z.add_0_r in Hval.
  unfold is_decimal. rewrite Hall, andb_true_r.
  split; [|exact Hval]. apply bool_decide_eq_true. intros Hempty.
  rewrite Hempty in Hval. change (decimal_value "") with 0 in Hval. lia.
Qed.

(** [toFixed(0)] rounds: for a timestamp of [t] milliseconds, not
    negative, the String is the numeral of the nearest second, the later
    one from the half on. *)
Lemma toFixed0_seconds (t : Z) :
  0 ≤ t → parseInt (toFixed0 t 1000) = JNum ((t + 500) / 1000).
Proof.
  intros Ht. unfold toFixed0. rewrite decide_False by lia.
  rewrite Z.abs_eq by done.
  assert ((2 * t + 1000) / (2 * 1000) = (t + 500) / 1000) as ->.
  { replace (2 * t + 1000) with (2 * (t + 500)) by lia.
    by rewrite Z.div_mul_cancel_l by lia. }
  assert (0 ≤ (t + 500) / 1000) as Hq by (apply Z.div_pos; lia).
  destruct (pretty_decimal _ Hq) as [Hdec Hval].
  by rewrite (parseInt_decimal _ Hdec), Hval.
Qed.

(** For every successful answer with a first entry stamped [t]
    milliseconds, not negative and below 2^53 (where the code's division
    and [toFixed] give the numeral of the exact rounding), the point handed
    over carries the entry's value, and as timestamp a String that
    [parseInt] reads as [t] rounded to the nearest second: the half second
    counts upwards, it is not cut off. *)
Theorem getLatestTimeSeries_rounds_to_seconds metric tags
    (http : string → HttpResult (LastPoint V)) (r : Response (LastPoint V))
    point rest :
  is_success (http (getLatestTimeSeries_uri cfg metric tags)) r →
  res_body r = BodyArray (point :: rest) →
  0 ≤ lp_timestamp point < 2 ^ 53 →
  ∃ ts,
    (getLatestTimeSeries cfg metric tags http).2
    = Callback None (Some (mkPoint (JStr ts) (Some (lp_value point))))
    ∧ parseInt ts = JNum ((lp_timestamp point + 500) / 1000).
Proof.
  intros (Herr & Hres & Hok) Hbody [Ht _].
  exists (toFixed0 (lp_timestamp point) 1000). split.
  - unfold getLatestTimeSeries, getLatestTimeSeries_end, failed.
    by rewrite Hres, Herr, Hok, Hbody.
  - by apply toFixed0_seconds.
Qed.

End LatestProperties.

(** ** The range queries, beyond the claims *)

Section RangeProperties.
Context {V : Type}.
Variable cfg : Config.
Implicit Types (filter : Filter) (metric group : string).

Lemma ensure_group_tag_tags filter group :
  let tags0 := default JsObject.empty (f_tags filter) in
  f_tags (ensure_group_tag group filter)
  = Some (if truthy (JsObject.get group tags0) then tags0
          else JsObject.set group (JStr "*") tags0).
Proof. unfold ensure_group_tag. by destruct (f_tags filter). Qed.

Lemma ensure_group_tag_idem filter group :
  ensure_group_tag group (ensure_group_tag group filter)
  = ensure_group_tag group filter.
Proof.
  pose proof (ensure_group_tag_tags filter group) as Htags. cbn zeta in Htags.
  set (tags0 := default JsObject.empty (f_tags filter)) in *.
  unfold ensure_group_tag at 1. rewrite Htags.
  assert (Hkeep :
    (let tags := if truthy (JsObject.get group tags0) then tags0
                 else JsObject.set group (JStr "*") tags0 in
     if truthy (JsObject.get group tags) then tags
     else JsObject.set group (JStr "*") tags)
    = (if truthy (JsObject.get group tags0) then tags0
       else JsObject.set group (JStr "*") tags0)).
  { cbn zeta. destruct (truthy (JsObject.get group tags0)) eqn:E.
    - by rewrite E.
    - by rewrite JsObject_get_set. }
  cbn zeta in Hkeep. rewrite Hkeep.
  unfold ensure_group_tag, set_tags. cbn [f_start f_end aggregation qualifiers].
  by destruct (f_tags filter).
Qed.

(** [getTimeSeriesRangeList] touches nothing of the caller's filter but the
    group tag: afterwards the filter has tags, the group tag is set, every
    other tag and every other field is as before, a group tag that was set
    is kept, and a second call changes nothing more. *)
Theorem getTimeSeriesRangeList_keeps_filter metric filter group
    (http : string → HttpResult (Series V)) :
  let filter' := (getTimeSeriesRangeList cfg metric filter group http).1 in
  let tags0 := default JsObject.empty (f_tags filter) in
  ∃ tags',
    f_tags filter' = Some tags'
    ∧ truthy (JsObject.get group tags') = true
    ∧ (∀ k, k ≠ group → JsObject.get k tags' = JsObject.get k tags0)
    ∧ (truthy (JsObject.get group tags0) = true → tags' = tags0)
    ∧ (f_start filter', f_end filter', aggregation filter', qualifiers filter')
      = (f_start filter, f_end filter, aggregation filter, qualifiers filter)
    ∧ (getTimeSeriesRangeList cfg metric filter' group http).1 = filter'.
Proof.
  intros filter' tags0. subst filter'.
  unfold getTimeSeriesRangeList. cbn [fst].
  pose proof (ensure_group_tag_tags filter group) as Htags.
  cbn zeta in Htags. fold tags0 in Htags.
  destruct (truthy (JsObject.get group tags0)) eqn:Htruthy.
  - exists tags0. repeat split; try done. apply ensure_group_tag_idem.
  - exists (JsObject.set group (JStr "*") tags0).
    assert (Hset : truthy (JsObject.get group
                             (JsObject.set group (JStr "*") tags0)) = true)
      by by rewrite JsObject_get_set.
    repeat split; try done.
    + intros k Hk. by apply JsObject_get_set_ne.
    + apply ensure_group_tag_idem.
Qed.



(** The statsd record of [getTimeSeriesRange] tells how the call ended: the
    failure count [opentsdb.query.queryRange.failure] is raised, alone,
    where the caller is handed an error, and the timing
    [opentsdb.query.queryRange.time] is sent, alone, where it is not. *)
Theorem getTimeSeriesRange_stats metric filter
    (http : string → HttpResult (Series V)) error pts :
  (getTimeSeriesRange cfg metric filter http).2 = Callback error pts →
  stats_events (getTimeSeriesRange cfg metric filter http).1
  = match error with
    | Some _ => [StatsIncrement "opentsdb.query.queryRange.failure"]
    | None => [StatsTiming "opentsdb.query.queryRange.time"]
    end.
Proof.
  unfold getTimeSeriesRange, queryRange, queryRange_end.
  destruct (queryRange_uri cfg metric filter) as [uri|]; [|done].
  destruct (res (http uri)) as [r|]; [|by destruct (err (http uri)); intros [=]; subst].
  destruct (failed (err (http uri)) r), (queryRange_no_data r);
    try (by intros [=]; subst);
    by destruct (res_body r) as [|?|[|? [|??]]]; intros [=]; subst.
Qed.

(** [renameTagValue] makes one request and normalises nothing: every
    failure of the transport or of the store, a 400 and a "No such name
    for " answer among them, is handed to the caller ([err] where there is
    one, the Error of the response otherwise), and a successful answer
    ends in [callback()]. *)
Theorem renameTagValue_reports_every_failure {A} oldname newname
    (http : string → HttpResult A) :
  let uri := renameTagValue_uri cfg oldname newname in
  let h := http uri in
  let run := renameTagValue cfg oldname newname http in
  http_requests run.1 = [uri]
  ∧ (∀ text, err h = Some text →
       run.2 = RenameCallback (Some (ErrText text)))
  ∧ (∀ r e, err h = None → res h = Some r → res_error r = Some e →
       run.2 = RenameCallback (Some (ErrObject e)))
  ∧ (∀ r, is_success h r → run.2 = RenameCallback None)
  ∧ (is_failure h → ∃ e, run.2 = RenameCallback (Some e)).
Proof.
  intros uri h run. subst run. unfold renameTagValue. fold uri h.
  split; [|split; [|split; [|split]]].
  - destruct (err h), (res h) as [r|]; try reflexivity.
    by destruct (res_error r).
  - by intros text ->.
  - by intros r e -> -> ->.
  - by intros r (-> & -> & ->).
  - intros [[text ->]|(r & -> & [e ->])]; [by eexists|].
    destruct (err h); by eexists.
Qed.

End RangeProperties.

(** ** The socket, beyond the claims *)

Section SocketMore.
Implicit Types (st : State) (a : Action) (env : Env) (s : nat).

Lemma write_finished_step st s sock c ws e :
  proc st = Running → sockets st !! s = Some sock → pending sock = c :: ws →
  trace (step st (WriteFinished s e)) = (trace st ++ [CallbackFired c e])%list
  ∧ proc (step st (WriteFinished s e)) = Running
  ∧ opentsdb (step st (WriteFinished s e)) = opentsdb st
  ∧ sockets (step st (WriteFinished s e)) !! s
    = Some (mkSocket (phase sock) (writable sock) (on_connect sock) ws).
Proof.
  intros Hp Hs Hws. unfold step. rewrite Hp, Hs, Hws.
  destruct (update_socket_frame s
    (λ sock, mkSocket (phase sock) (writable sock) (on_connect sock) ws) st)
    as (_ & Ho & Hpr & Htr).
  unfold record. cbn [proc opentsdb sockets trace]. rewrite Hpr, Ho, Htr.
  repeat split; try done.
  exact (update_socket_lookup s _ st sock Hs).
Qed.

Lemma writes_finished_trace st s sock (errs : list (option string)) :
  proc st = Running → sockets st !! s = Some sock →
  (length errs ≤ length (pending sock))%nat →
  ∃ sock',
    trace (run st (WriteFinished s <$> errs))
    = (trace st ++ zip_with CallbackFired (pending sock) errs)%list
    ∧ proc (run st (WriteFinished s <$> errs)) = Running
    ∧ opentsdb (run st (WriteFinished s <$> errs)) = opentsdb st
    ∧ sockets (run st (WriteFinished s <$> errs)) !! s = Some sock'
    ∧ pending sock' = drop (length errs) (pending sock).
Proof.
  revert st sock. induction errs as [|e errs IH]; intros st sock Hp Hs Hlen.
  - exists sock. rewrite zip_with_nil_r, app_nil_r. by rewrite drop_0.
  - destruct (pending sock) as [|c ws] eqn:Hws; [simpl in Hlen; lia|].
    destruct (write_finished_step st s sock c ws e Hp Hs Hws)
      as (Htr1 & Hp1 & Ho1 & Hs1).
    destruct (IH _ _ Hp1 Hs1) as (sock' & Htr & Hp' & Ho' & Hs' & Hpend');
      [simpl in *; lia|].
    exists sock'. unfold run in *. rewrite fmap_cons. cbn [foldl].
    rewrite Htr, Htr1, <-app_assoc, Hp', Ho', Ho1, Hs', Hpend'.
    by repeat split.
Qed.

Lemma write_on_open_connection st s sock metric callback env :
  proc st = Running → connection_open st s sock →
  let st' := step st (CallAddTimeSeries metric callback env) in
  proc st' = Running
  ∧ connection_open st' s
      (mkSocket (phase sock) (writable sock) (on_connect sock)
                (pending sock ++ [callback]))
  ∧ ∃ stats,
      trace st' = (trace st ++ SocketWrite s (put_line metric) :: stats)%list
      ∧ socket_writes stats = [] ∧ connection_attempts stats = 0%nat
      ∧ callbacks_fired stats = [].
Proof.
  intros Hp (Ho & Hs & Hw) st'.
  assert (Hstep : st' = sendTimeSeries metric callback None env st).
  { subst st'. unfold step, addTimeSeries, needs_reconnect.
    by rewrite Hp, Ho, Hs, Hw. }
  destruct (sendTimeSeries_write metric callback env st s sock Ho Hs)
    as (Hp' & Ho' & _ & Hsock & Htr).
  rewrite <-Hstep in *. split; [congruence|]. split.
  - split; [done|]. split; [|done].
    rewrite Hsock. apply list_lookup_insert_eq. by eapply lookup_lt_Some.
  - eexists. split; [exact Htr|]. by destruct (write_returns env).
Qed.

Lemma writes_on_open_trace st s sock (calls : list (string * nat * Env)) :
  proc st = Running → connection_open st s sock →
  ∃ es sock',
    trace (run st (write_call <$> calls)) = (trace st ++ es)%list
    ∧ proc (run st (write_call <$> calls)) = Running
    ∧ connection_open (run st (write_call <$> calls)) s sock'
    ∧ pending sock' = (pending sock ++ ((λ c, c.1.2) <$> calls))%list
    ∧ socket_writes es = (λ c, (s, put_line c.1.1)) <$> calls
    ∧ connection_attempts es = 0%nat
    ∧ callbacks_fired es = [].
Proof.
  revert st sock. induction calls as [|[[metric callback] env] calls IH];
    intros st sock Hp Hopen.
  - exists [], sock. simpl. by rewrite !app_nil_r.
  - destruct (write_on_open_connection st s sock metric callback env Hp Hopen)
      as (Hp1 & Hopen1 & stats & Htr1 & Hw1 & Hc1 & Hf1).
    destruct (IH _ _ Hp1 Hopen1)
      as (es & sock' & Htr & Hp' & Hopen' & Hpend' & Hw & Hc & Hf).
    exists (SocketWrite s (put_line metric) :: stats ++ es)%list, sock'.
    unfold run in *. rewrite fmap_cons. cbn [foldl].
    change (write_call (metric, callback, env))
      with (CallAddTimeSeries metric callback env).
    rewrite Htr, Htr1, <-app_assoc. split; [done|]. split; [done|].
    split; [done|]. split.
    { rewrite Hpend'. cbn [pending]. by rewrite <-app_assoc. }
    unfold socket_writes, connection_attempts, callbacks_fired in *.
    cbn [omap list_omap]. rewrite !omap_app, length_app.
    rewrite Hw1, Hw, Hf1, Hf. split; [done|]. split; [|done].
    apply Nat.eq_add_0. by split.
Qed.

(** Writes made while the connection is open and writable are put on the
    one socket, in the order of the calls, each as [put <metric>] and a
    newline; no connection is opened, no callback is fired by the calls
    themselves, and the callbacks wait in the order of the calls. *)
Theorem writes_on_open_connection st s sock (calls : list (string * nat * Env)) :
  proc st = Running → connection_open st s sock →
  let st' := run st (write_call <$> calls) in
  proc st' = Running
  ∧ socket_writes (effects_since st st')
    = (λ c, (s, put_line c.1.1)) <$> calls
  ∧ connection_attempts (effects_since st st') = 0%nat
  ∧ callbacks_fired (effects_since st st') = []
  ∧ pending <$> sockets st' !! s
    = Some (pending sock ++ ((λ c, c.1.2) <$> calls))%list.
Proof.
  intros Hp Hopen st'.
  destruct (writes_on_open_trace st s sock calls Hp Hopen)
    as (es & sock' & Htr & Hp' & (_ & Hs' & _) & Hpend' & Hw & Hc & Hf).
  fold st' in Htr, Hp', Hs'.
  rewrite (effects_since_app _ _ _ Htr). repeat split; try done.
  by rewrite Hs', <-Hpend'.
Qed.

(** The turn of a 'connect' event, up to the call of the callback. *)
Lemma established_frame st s sock :
  sockets st !! s = Some sock →
  let est := update_socket s
               (λ sock, mkSocket Established true (on_connect sock) (pending sock))
               (set_opentsdb (Some s)
                  (record [LogInfo "Connected to OpenTSDB."] st)) in
  proc est = proc st ∧ opentsdb est = Some s
  ∧ localConfig est = localConfig st
  ∧ trace est = (trace st ++ [LogInfo "Connected to OpenTSDB."])%list
  ∧ sockets est !! s
    = Some (mkSocket Established true (on_connect sock) (pending sock)).
Proof.
  intros Hs est.
  destruct (update_socket_frame s
              (λ sock, mkSocket Established true (on_connect sock) (pending sock))
              (set_opentsdb (Some s)
                 (record [LogInfo "Connected to OpenTSDB."] st)))
    as (Hc & Ho & Hp & Htr). fold est in Hc, Ho, Hp, Htr.
  repeat split; try done.
  exact (update_socket_lookup s _
           (set_opentsdb (Some s)
              (record [LogInfo "Connected to OpenTSDB."] st)) sock Hs).
Qed.

(** [connect] at startup: the connection is asked for; once it is
    established the caller's callback is fired, without error, the
    variable [opentsdb] holds the new socket and the connection is open; a
    second 'connect' event of this socket does nothing, so the callback is
    fired once. *)
Theorem connect_fires_callback_once st nconf callback env env' :
  proc st = Running → create_throws env = None →
  let n := length (sockets st) in
  let st1 := step st (CallConnect nconf callback env) in
  let st2 := step st1 (SocketConnected n env') in
  effects_since st st1 = [CreateConnection (port nconf) (host nconf)]
  ∧ opentsdb st1 = opentsdb st
  ∧ effects_since st1 st2
    = [LogInfo "Connected to OpenTSDB."; CallbackFired callback None]
  ∧ proc st2 = Running
  ∧ localConfig st2 = Some nconf
  ∧ connection_open st2 n (mkSocket Established true (AppCallback callback) [])
  ∧ step st2 (SocketConnected n env') = st2.
Proof.
  intros Hp Henv n st1 st2.
  assert (Hst1 : st1 = record [CreateConnection (port nconf) (host nconf)]
                         (set_sockets
                            (sockets st
                             ++ [mkSocket Connecting true (AppCallback callback) []])
                            (set_localConfig (Some nconf) st))).
  { subst st1. unfold step, connect. by rewrite Hp, Henv. }
  assert (Hn : sockets st1 !! n
               = Some (mkSocket Connecting true (AppCallback callback) [])).
  { rewrite Hst1. cbn [sockets record set_sockets]. by apply list_lookup_middle. }
  assert (Hp1 : proc st1 = Running) by by rewrite Hst1.
  destruct (established_frame st1 n _ Hn) as (Hpe & Hoe & Hce & Htre & Hse).
  assert (Hst2 : st2 = record [CallbackFired callback None]
                         (update_socket n
                            (λ sock, mkSocket Established true (on_connect sock)
                                              (pending sock))
                            (set_opentsdb (Some n)
                               (record [LogInfo "Connected to OpenTSDB."] st1)))).
  { subst st2. unfold step. by rewrite Hp1, Hn. }
  split; [apply effects_since_app; by rewrite Hst1|].
  split; [by rewrite Hst1|].
  split; [apply effects_since_app; rewrite Hst2; unfold record at 1;
          cbn [trace]; by rewrite Htre, <-app_assoc|].
  split; [rewrite Hst2; unfold record at 1; cbn [proc]; congruence|].
  split; [rewrite Hst2; unfold record at 1; cbn [localConfig];
          rewrite Hce; by rewrite Hst1|].
  assert (Hs2 : sockets st2 !! n
                = Some (mkSocket Established true (AppCallback callback) [])).
  { rewrite Hst2. unfold record at 1. cbn [sockets]. exact Hse. }
  split.
  - split; [rewrite Hst2; unfold record at 1; by cbn [opentsdb]|]. by split.
  - unfold step at 1.
    assert (proc st2 = Running) as ->
      by (rewrite Hst2; unfold record at 1; cbn [proc]; congruence).
    by rewrite Hs2.
Qed.

(** An error on the established connection is not fatal: the turn logs it,
    destroys the socket and clears the variable [opentsdb], the process
    runs on, and the next write opens a new connection instead of writing
    to the socket that is gone. *)
Theorem network_error_causes_reconnect st s sock cfg err metric callback env :
  proc st = Running → opentsdb st = Some s → sockets st !! s = Some sock →
  phase sock = Established → localConfig st = Some cfg →
  create_throws env = None →
  let st1 := step st (SocketError s err) in
  let st2 := step st1 (CallAddTimeSeries metric callback env) in
  proc st1 = Running
  ∧ opentsdb st1 = None
  ∧ effects_since st st1
    = [LogError ("OpenTSDB  network error: " +:+ err); SocketDestroy s]
  ∧ (∃ sock1, sockets st1 !! s = Some sock1 ∧ phase sock1 = Destroyed
              ∧ writable sock1 = false)
  ∧ effects_since st1 st2 = [CreateConnection (port cfg) (host cfg)]
  ∧ proc st2 = Running.
Proof.
  intros Hp Ho Hs Hph Hcfg Henv st1 st2.
  set (dst := update_socket s
                (λ sock, mkSocket Destroyed false (on_connect sock) (pending sock))
                (record [LogError ("OpenTSDB  network error: " +:+ err)] st)).
  assert (Hst1 : st1 = set_opentsdb None (record [SocketDestroy s] dst)).
  { subst st1. unfold step. rewrite Hp, Hs, Hph. unfold networkError.
    cbn [opentsdb record]. by rewrite Ho. }
  destruct (update_socket_frame s
              (λ sock, mkSocket Destroyed false (on_connect sock) (pending sock))
              (record [LogError ("OpenTSDB  network error: " +:+ err)] st))
    as (Hcd & _ & Hpd & Htrd). fold dst in Hcd, Hpd, Htrd.
  assert (Hsd : sockets dst !! s
                = Some (mkSocket Destroyed false (on_connect sock) (pending sock))).
  { exact (update_socket_lookup s _
             (record [LogError ("OpenTSDB  network error: " +:+ err)] st)
             sock Hs). }
  assert (Hp1 : proc st1 = Running).
  { rewrite Hst1. cbn [proc set_opentsdb record]. by rewrite Hpd. }
  assert (Ho1 : opentsdb st1 = None) by by rewrite Hst1.
  assert (Hc1 : localConfig st1 = Some cfg).
  { rewrite Hst1. cbn [localConfig set_opentsdb record]. by rewrite Hcd. }
  split; [done|]. split; [done|]. split.
  { apply effects_since_app. rewrite Hst1. cbn [trace set_opentsdb record].
    rewrite Htrd. cbn [trace record]. by rewrite <-app_assoc. }
  split; [eexists; split; [rewrite Hst1; exact Hsd|done]|].
  destruct (addTimeSeries_reconnects st1 cfg metric callback env)
    as (Hp2 & _ & _ & _ & Htr2); try done.
  { unfold connection_down. by rewrite Ho1. }
  split; [by apply effects_since_app|done].
Qed.

Lemma established_update_socket s f st :
  (∀ sock, phase (f sock) = phase sock) →
  opentsdb_established st → opentsdb_established (update_socket s f st).
Proof.
  intros Hf Hinv i. rewrite opentsdb_update_socket. intros Hi.
  destruct (Hinv i Hi) as (sock & Hs & Hph).
  unfold update_socket. destruct (sockets st !! s) as [sock0|] eqn:Hs0;
    [|by exists sock].
  cbn [sockets set_sockets]. destruct (decide (s = i)) as [->|Hne].
  - rewrite list_lookup_insert_eq by by eapply lookup_lt_Some.
    exists (f sock0). split; [done|]. rewrite Hf. congruence.
  - rewrite list_lookup_insert_ne by done. by exists sock.
Qed.

Lemma established_connect nconf callback env st :
  opentsdb_established st → opentsdb_established (connect nconf callback env st).
Proof.
  intros Hinv. unfold connect. destruct nconf as [cfg|]; [|exact Hinv].
  destruct (create_throws env); [exact Hinv|].
  intros i Hi. destruct (Hinv i Hi) as (sock & Hs & Hph). exists sock.
  split; [|done]. cbn [sockets record set_sockets].
  rewrite lookup_app_l; [done|]. by eapply lookup_lt_Some.
Qed.

Lemma established_sendTimeSeries metric callback err env st :
  opentsdb_established st →
  opentsdb_established (sendTimeSeries metric callback err env st).
Proof.
  intros Hinv. unfold sendTimeSeries. destruct err; [exact Hinv|].
  destruct (opentsdb st) as [s|] eqn:Ho; [|by intros i; cbn; rewrite Ho].
  assert (Hupd : opentsdb_established
            (update_socket s
               (λ sock, mkSocket (phase sock) (writable sock) (on_connect sock)
                                 (pending sock ++ [callback])) st))
    by by apply established_update_socket.
  destruct (write_returns env); exact Hupd.
Qed.

(** Every turn keeps [opentsdb], where set, on an established socket. *)
Lemma established_step st a :
  opentsdb_established st → opentsdb_established (step st a).
Proof.
  intros Hinv. unfold step. destruct (proc st); [|done..].
  destruct a as [nconf callback env|metric callback env|s env|s err|s|s err].
  - by apply established_connect.
  - unfold addTimeSeries. destruct (needs_reconnect st);
      [by apply established_connect|by apply established_sendTimeSeries].
  - destruct (sockets st !! s) as [sock|] eqn:Hs; [|done].
    destruct (phase sock); try done. unfold connectionEstablished.
    destruct (established_frame st s sock Hs) as (_ & Hoe & _ & _ & Hse).
    assert (Hest : opentsdb_established
              (update_socket s
                 (λ sock, mkSocket Established true (on_connect sock)
                                   (pending sock))
                 (set_opentsdb (Some s)
                    (record [LogInfo "Connected to OpenTSDB."] st)))).
    { intros i Hi. rewrite Hoe in Hi. injection Hi as <-. eauto. }
    destruct (on_connect sock); [exact Hest|].
    by apply established_sendTimeSeries.
  - destruct (sockets st !! s) as [sock|] eqn:Hs; [|done].
    destruct (phase sock); [exact Hinv| |done].
    unfold networkError. cbn [opentsdb record].
    destruct (opentsdb st); [by intros i|exact Hinv].
  - by apply established_update_socket.
  - destruct (sockets st !! s) as [sock|] eqn:Hs; [|done].
    destruct (pending sock) as [|c rest]; [done|].
    assert (Hupd : opentsdb_established
              (update_socket s
                 (λ sock, mkSocket (phase sock) (writable sock)
                                   (on_connect sock) rest) st))
      by by apply established_update_socket.
    exact Hupd.
Qed.

(** In every state the module can reach, the variable [opentsdb], where
    set, holds a socket of the heap whose connection is established; so the
    test [!opentsdb || !opentsdb.writable] of [addTimeSeries] holds just
    where the connection is absent or unwritable, and fails just where a
    connection is open. A call of [addTimeSeries] never ends in an uncaught
    exception: the process runs on, or exits through [connectionError]. *)
Theorem opentsdb_holds_established_socket st :
  reachable st →
  opentsdb_established st
  ∧ (needs_reconnect st = true ↔ connection_down st)
  ∧ (needs_reconnect st = false ↔ ∃ s sock, connection_open st s sock)
  ∧ ∀ metric callback env,
      proc st = Running →
      proc (step st (CallAddTimeSeries metric callback env)) = Running
      ∨ proc (step st (CallAddTimeSeries metric callback env)) = Exited 1.
Proof.
  intros [actions ->].
  assert (Hinv : opentsdb_established (run initial actions)).
  { induction actions as [|a actions IH] using rev_ind; [by intros s|].
    unfold run in *. rewrite foldl_snoc. by apply established_step. }
  set (st := run initial actions) in *.
  split; [done|]. split; [|split].
  - split; [|apply connection_down_needs_reconnect].
    unfold needs_reconnect, connection_down.
    destruct (opentsdb st) as [s|] eqn:Ho; [|done].
    destruct (Hinv s Ho) as (sock & Hs & _). rewrite Hs.
    intros Hw. exists sock. split; [done|]. by destruct (writable sock).
  - unfold needs_reconnect, connection_open. split.
    + destruct (opentsdb st) as [s|]; [|done].
      destruct (sockets st !! s) as [sock|] eqn:Hs; [|done].
      intros Hw. exists s, sock. repeat split; [done|].
      by destruct (writable sock).
    + by intros (s & sock & -> & -> & ->).
  - intros metric callback env Hp. unfold step, addTimeSeries. rewrite Hp.
    destruct (needs_reconnect st) eqn:Hn.
    + unfold connect. destruct (localConfig st); [|by right].
      destruct (create_throws env); [by right|by left].
    + unfold needs_reconnect in Hn. unfold sendTimeSeries.
      destruct (opentsdb st) as [s|]; [|done]. left.
      destruct (write_returns env); cbn [proc record];
        by rewrite (proj1 (proj2 (proj2 (update_socket_frame s _ st)))).
Qed.

Lemma reconnect_opens st cfg metric callback env env' :
  proc st = Running → connection_down st → localConfig st = Some cfg →
  create_throws env = None →
  let n := length (sockets st) in
  let st2 := run st [CallAddTimeSeries metric callback env;
                     SocketConnected n env'] in
  proc st2 = Running
  ∧ connection_open st2 n
      (mkSocket Established true (SendTimeSeries metric callback) [callback]).
Proof.
  intros Hp Hdown Hcfg Henv n st2.
  destruct (addTimeSeries_reconnects st cfg metric callback env)
    as (Hp1 & _ & _ & Hs1 & _); try done.
  set (st1 := step st (CallAddTimeSeries metric callback env)) in *.
  set (new := mkSocket Connecting true (SendTimeSeries metric callback) []) in *.
  assert (Hn : sockets st1 !! n = Some new)
    by (rewrite Hs1; by apply list_lookup_middle).
  destruct (established_frame st1 n new Hn) as (Hpe & Hoe & _ & _ & Hse).
  assert (Hst2 : st2 = sendTimeSeries metric callback None env'
                         (update_socket n
                            (λ sock, mkSocket Established true (on_connect sock)
                                              (pending sock))
                            (set_opentsdb (Some n)
                               (record [LogInfo "Connected to OpenTSDB."] st1)))).
  { subst st2. unfold run. cbn [foldl]. fold st1. unfold step at 1.
    rewrite Hp1, Hn. reflexivity. }
  destruct (sendTimeSeries_write metric callback env' _ n _ Hoe Hse)
    as (Hp2 & Ho2 & _ & Hs2 & _).
  rewrite <-Hst2 in Hp2, Ho2, Hs2.
  split; [congruence|]. split; [done|]. split; [|done].
  rewrite Hs2. apply list_lookup_insert_eq. by eapply lookup_lt_Some.
Qed.

(** Once the connection a write opened is established, it is the one the
    module uses: the writes that follow are put on the new socket, in
    their order, and open no further connection. *)
Theorem reconnect_is_reused st cfg metric callback env env'
    (calls : list (string * nat * Env)) :
  proc st = Running → connection_down st → localConfig st = Some cfg →
  create_throws env = None →
  let n := length (sockets st) in
  let st2 := run st [CallAddTimeSeries metric callback env;
                     SocketConnected n env'] in
  let st3 := run st2 (write_call <$> calls) in
  opentsdb st2 = Some n
  ∧ socket_writes (effects_since st2 st3)
    = (λ c, (n, put_line c.1.1)) <$> calls
  ∧ connection_attempts (effects_since st2 st3) = 0%nat
  ∧ proc st3 = Running.
Proof.
  intros Hp Hdown Hcfg Henv n st2 st3.
  destruct (reconnect_opens st cfg metric callback env env')
    as (Hp2 & Hopen2); try done. fold n st2 in Hp2, Hopen2.
  destruct (writes_on_open_trace st2 n _ calls Hp2 Hopen2)
    as (es & sock' & Htr & Hp3 & _ & _ & Hw & Hc & _).
  fold st3 in Htr, Hp3. rewrite (effects_since_app _ _ _ Htr).
  split; [apply Hopen2|]. by repeat split.
Qed.

End SocketMore.

(** ** Further runs on concrete answers and events *)

Section MoreRuns.
Import Runs.

Lemma responseToLines_order_independent_witness :
  responseToLines minute_points = responseToLines minute_points_rev.
Proof.
  apply responseToLines_order_independent.
  - compute_done.
  - apply Permutation_swap.
Defined.

Lemma responseToLines_complete_witness :
  length (responseToLines minute_points) = 2%nat
  ∧ mkPoint (parseInt "1700000060") (Some 7) ∈ responseToLines minute_points.
Proof.
  destruct (responseToLines_complete minute_points) as [Hlen Hin].
  - compute_done.
  - split; [exact Hlen|]. apply Hin. compute_done.
Defined.

Lemma getLatestTimeSeries_rounds_to_seconds_witness :
  ∃ ts,
    (getLatestTimeSeries cfg "power" hpc_tags (λ _, last_answer)).2
    = Callback None (Some (mkPoint (JStr ts) (Some 42)))
    ∧ parseInt ts = JNum ((1700000000000 + 500) / 1000).
Proof.
  apply (getLatestTimeSeries_rounds_to_seconds cfg "power" hpc_tags
           (λ _, last_answer)
           (mkResponse None (BodyArray [mkLastPoint 1700000000000 42]))
           (mkLastPoint 1700000000000 42) []).
  - by repeat split.
  - reflexivity.
  - simpl. lia.
Defined.

Lemma getTimeSeriesRange_stats_witness :
  stats_events (getTimeSeriesRange (V:=Z) cfg "power" day_filter
                  (λ _, bad_request)).1
  = [StatsTiming "opentsdb.query.queryRange.time"].
Proof.
  apply (getTimeSeriesRange_stats (V:=Z) cfg "power" day_filter
           (λ _, bad_request) None []).
  vm_compute. reflexivity.
Defined.

Lemma writes_on_open_connection_witness :
  socket_writes (effects_since connected busy)
  = [(0%nat, put_line "power 1700000000 5");
     (0%nat, put_line "power 1700000060 6")].
Proof.
  refine (proj1 (proj2 (writes_on_open_connection connected 0
                          (mkSocket Established true (AppCallback 0) [])
                          two_writes _ _))); [reflexivity|].
  by repeat split.
Defined.

Lemma connect_fires_callback_once_witness :
  effects_since (step initial (CallConnect cfg 0 calm)) connected
  = [LogInfo "Connected to OpenTSDB."; CallbackFired 0 None].
Proof.
  refine (proj1 (proj2 (proj2
            (connect_fires_callback_once initial cfg 0 calm calm _ _))));
    reflexivity.
Defined.

Lemma network_error_causes_reconnect_witness :
  effects_since lost_connection
    (step lost_connection (CallAddTimeSeries "power 1700000000 5" 1 calm))
  = [CreateConnection "4242" "tsdb.local"].
Proof.
  refine (proj1 (proj2 (proj2 (proj2 (proj2
            (network_error_causes_reconnect connected 0
               (mkSocket Established true (AppCallback 0) []) cfg
               "read ECONNRESET" "power 1700000000 5" 1 calm
               _ _ _ _ _ _)))))); reflexivity.
Defined.

Lemma opentsdb_holds_established_socket_witness :
  reachable busy ∧ opentsdb_established busy.
Proof.
  assert (Hr : reachable busy).
  { by exists (CallConnect cfg 0 calm :: SocketConnected 0 calm
               :: (write_call <$> two_writes)). }
  split; [exact Hr|]. exact (proj1 (opentsdb_holds_established_socket busy Hr)).
Defined.

Lemma reconnect_is_reused_witness :
  socket_writes
    (effects_since
       (run lost_connection
          [CallAddTimeSeries "a 1 2" 1 calm; SocketConnected 1 calm])
       (run (run lost_connection
               [CallAddTimeSeries "a 1 2" 1 calm; SocketConnected 1 calm])
          (write_call <$> two_writes)))
  = [(1%nat, put_line "power 1700000000 5");
     (1%nat, put_line "power 1700000060 6")].
Proof.
  refine (proj1 (proj2 (reconnect_is_reused lost_connection cfg "a 1 2" 1
                          calm calm two_writes _ _ _ _))); done.
Defined.

End MoreRuns.

(** ** The grouped range query *)

Section GroupedProperties.
Context {V : Type}.
Variable localConfig : Config.
Implicit Types (filter : Filter) (metric group : string).

(** What a converted point sequence holds of its raw point map: as many
    points as properties, every point from a property, and, the keys being
    distinct, every property as a point. *)
Lemma responseToLines_content (dps : JsObject.t V) :
  length (responseToLines dps) = length dps
  ∧ (∀ p, p ∈ responseToLines dps →
       ∃ k x, (k, x) ∈ dps ∧ p = mkPoint (parseInt k) (Some x))
  ∧ (NoDup dps.*1 → ∀ k x, (k, x) ∈ dps →
       mkPoint (parseInt k) (Some x) ∈ responseToLines dps).
Proof.
  assert (Hperm : js_sort (JsObject.keys dps) ≡ₚ dps.*1)
    by by rewrite js_sort_perm, JsObject_keys_perm.
  unfold responseToLines. split; [|split].
  - by rewrite length_fmap, Hperm, length_fmap.
  - intros p (k & -> & Hk)%list_elem_of_fmap. rewrite Hperm in Hk.
    destruct (JsObject_get_elem k dps Hk) as (x & -> & Hin). by exists k, x.
  - intros Hnd k x Hin. apply list_elem_of_fmap. exists k.
    rewrite (JsObject_get_NoDup dps k x Hnd Hin). split; [done|].
    rewrite Hperm. apply list_elem_of_fmap. by exists (k, x).
Qed.


End GroupedProperties.

(** ** The errors after a write's reconnect *)

Section ReconnectErrors.
Implicit Types (st : State) (env : Env).

(** The turn of an 'error' event of the socket [opentsdb] holds. *)
Lemma network_error_turn st s sock err :
  proc st = Running → opentsdb st = Some s → sockets st !! s = Some sock →
  phase sock = Established →
  proc (step st (SocketError s err)) = Running
  ∧ opentsdb (step st (SocketError s err)) = None
  ∧ trace (step st (SocketError s err))
    = (trace st ++ [LogError ("OpenTSDB  network error: " +:+ err);
                    SocketDestroy s])%list.
Proof.
  intros Hp Ho Hs Hph.
  set (dst := update_socket s
                (λ sock, mkSocket Destroyed false (on_connect sock) (pending sock))
                (record [LogError ("OpenTSDB  network error: " +:+ err)] st)).
  assert (Hst : step st (SocketError s err)
                = set_opentsdb None (record [SocketDestroy s] dst)).
  { unfold step. rewrite Hp, Hs, Hph. unfold networkError.
    cbn [opentsdb record]. by rewrite Ho. }
  destruct (update_socket_frame s
              (λ sock, mkSocket Destroyed false (on_connect sock) (pending sock))
              (record [LogError ("OpenTSDB  network error: " +:+ err)] st))
    as (_ & _ & Hpd & Htrd). fold dst in Hpd, Htrd.
  rewrite Hst. cbn [proc opentsdb trace set_opentsdb record].
  rewrite Hpd, Htrd. cbn [proc trace record]. by rewrite <-app_assoc.
Qed.

(** C4, as the code has it. A write that finds the connection absent or
    unwritable opens a new one. Where [net.createConnection] throws, or the
    connecting socket reports an error, the process exits with the fatal
    effects and the caller's callback is not fired. Once the connection is
    established the line is written on it with the caller's callback; an
    error the transport reports for this write is handed to the caller's
    callback; an 'error' event of the socket is logged, the socket is
    destroyed and [opentsdb] cleared, and no callback is fired. *)
Theorem addTimeSeries_reconnect_error_paths st cfg metric callback env env' err :
  proc st = Running → connection_down st → localConfig st = Some cfg →
  let n := length (sockets st) in
  let st1 := step st (CallAddTimeSeries metric callback env) in
  let st2 := step st1 (SocketConnected n env') in
  (create_throws env = Some err →
     proc st1 = Exited 1 ∧ effects_since st st1 = fatal_effects err)
  ∧ (create_throws env = None →
     effects_since st st1 = [CreateConnection (port cfg) (host cfg)]
     ∧ proc (step st1 (SocketError n err)) = Exited 1
     ∧ effects_since st1 (step st1 (SocketError n err)) = fatal_effects err
     ∧ proc st2 = Running ∧ opentsdb st2 = Some n
     ∧ effects_since st1 st2
       = LogInfo "Connected to OpenTSDB."
         :: SocketWrite n (put_line metric)
         :: (if write_returns env'
             then [StatsTiming "opentsdb.write.time"]
             else [StatsIncrement "opentsdb.write.delayed";
                   LogInfo "OpenTSDB data queued for writing"])
     ∧ effects_since st2 (step st2 (WriteFinished n (Some err)))
       = [CallbackFired callback (Some err)]
     ∧ effects_since st2 (step st2 (SocketError n err))
       = [LogError ("OpenTSDB  network error: " +:+ err); SocketDestroy n]
     ∧ proc (step st2 (SocketError n err)) = Running
     ∧ opentsdb (step st2 (SocketError n err)) = None).
Proof.
  intros Hp Hdown Hcfg n st1 st2. split.
  - intros Henv. apply connection_down_needs_reconnect in Hdown.
    assert (Hst1 : st1 = connectionError err (set_localConfig (Some cfg) st)).
    { subst st1. unfold step, addTimeSeries, connect.
      by rewrite Hp, Hdown, Hcfg, Henv. }
    rewrite Hst1. split; [done|]. by apply effects_since_app.
  - intros Henv.
    destruct (addTimeSeries_reconnect_write_error st cfg metric callback env
                env' err Hp Hdown Hcfg Henv)
      as (Hcreate & Hp2 & Ho2 & Hwrite & Hfired & _).
    fold n st1 st2 in Hcreate, Hp2, Ho2, Hwrite, Hfired.
    destruct (addTimeSeries_reconnects st cfg metric callback env)
      as (Hp1 & _ & _ & Hs1 & _); try done. fold st1 in Hp1, Hs1.
    assert (Hn : sockets st1 !! n
                 = Some (mkSocket Connecting true
                           (SendTimeSeries metric callback) []))
      by (rewrite Hs1; by apply list_lookup_middle).
    assert (Hfail : step st1 (SocketError n err) = connectionError err st1).
    { unfold step. by rewrite Hp1, Hn. }
    destruct (reconnect_opens st cfg metric callback env env' Hp Hdown Hcfg Henv)
      as (_ & _ & Hs2 & _).
    change (run st [CallAddTimeSeries metric callback env;
                    SocketConnected (length (sockets st)) env'])
      with st2 in Hs2.
    destruct (network_error_turn st2 n _ err Hp2 Ho2 Hs2 eq_refl)
      as (Hp3 & Ho3 & Htr3).
    split; [done|]. rewrite Hfail.
    split; [done|]. split; [by apply effects_since_app|].
    split; [done|]. split; [done|]. split; [done|]. split; [done|].
    split; [by apply effects_since_app|]. by split.
Qed.

End ReconnectErrors.

(** ** Writes and their callers *)

Section WriteCallers.
Implicit Types (st : State) (s : nat).

(** The callback [addTimeSeries] passes to [socket.write] is the one of its
    own caller: after some writes on the open connection, when the
    transport has dealt with the writes that were under way before and
    with these, every caller's callback was fired once, after those of the
    earlier writes and in the order of the calls, with the outcome of its
    own write; the calls themselves fire no callback. *)
Theorem writes_complete_to_their_callers st s sock
    (calls : list (string * nat * Env)) (errs0 errs : list (option string)) :
  proc st = Running → connection_open st s sock →
  length errs0 = length (pending sock) → length errs = length calls →
  let st1 := run st (write_call <$> calls) in
  let st2 := run st1 (WriteFinished s <$> (errs0 ++ errs)%list) in
  callbacks_fired (effects_since st st1) = []
  ∧ effects_since st1 st2
    = (zip_with CallbackFired (pending sock) errs0
       ++ zip_with CallbackFired ((λ c, c.1.2) <$> calls) errs)%list
  ∧ pending <$> sockets st2 !! s = Some [].
Proof.
  intros Hp Hopen Hlen0 Hlen st1 st2.
  destruct (writes_on_open_trace st s sock calls Hp Hopen)
    as (es & sock1 & Htr1 & Hp1 & (_ & Hs1 & _) & Hpend1 & _ & _ & Hf).
  fold st1 in Htr1, Hp1, Hs1.
  assert (Hall : length (errs0 ++ errs)%list = length (pending sock1)).
  { rewrite Hpend1, !length_app, length_fmap. lia. }
  destruct (writes_finished_trace st1 s sock1 (errs0 ++ errs)%list Hp1 Hs1)
    as (sock2 & Htr2 & _ & _ & Hs2 & Hpend2); [lia|].
  fold st2 in Htr2, Hs2.
  split; [by rewrite (effects_since_app _ _ _ Htr1)|]. split.
  - rewrite (effects_since_app _ _ _ Htr2), Hpend1.
    by apply zip_with_app.
  - rewrite Hs2. cbn [fmap option_fmap option_map].
    by rewrite Hpend2, Hall, drop_all.
Qed.

End WriteCallers.

(** ** Runs of the grouped query and of the write paths *)

Section PathRuns.
Import Runs.


(** After the reconnect of a write is established: the transport's error
    on the write reaches the caller. *)
Lemma addTimeSeries_reconnect_error_paths_witness :
  effects_since
    (run lost_connection
       [CallAddTimeSeries "power 1700000000 5" 1 calm; SocketConnected 1 calm])
    (run lost_connection
       [CallAddTimeSeries "power 1700000000 5" 1 calm; SocketConnected 1 calm;
        WriteFinished 1 (Some "write EPIPE")])
  = [CallbackFired 1 (Some "write EPIPE")].
Proof.
  destruct (addTimeSeries_reconnect_error_paths lost_connection cfg
              "power 1700000000 5" 1 calm calm "write EPIPE")
    as [_ Hpaths]; [reflexivity|done|reflexivity|].
  destruct (Hpaths eq_refl) as (_ & _ & _ & _ & _ & _ & Hfired & _).
  exact Hfired.
Defined.

(** Errors of the transport after the reconnect of a write that its caller
    is not told of: the socket fails once the write is through (the caller
    was told of the success, and is told nothing more), and the reconnect
    itself fails (the process exits, no callback is fired). *)
Lemma reconnect_errors_not_reported :
  callbacks_fired
    (effects_since lost_connection
       (run lost_connection
          [CallAddTimeSeries "power 1700000000 5" 1 calm; SocketConnected 1 calm;
           WriteFinished 1 None; SocketError 1 "read ECONNRESET"]))
  = [(1%nat, None)]
  ∧ callbacks_fired
      (effects_since lost_connection
         (run lost_connection
            [CallAddTimeSeries "power 1700000000 5" 1 calm;
             SocketError 1 "connect ECONNREFUSED"]))
    = []
  ∧ proc (run lost_connection
            [CallAddTimeSeries "power 1700000000 5" 1 calm;
             SocketError 1 "connect ECONNREFUSED"])
    = Exited 1.
Proof. repeat split; vm_compute; reflexivity. Qed.

(** Two writes on the open connection; the first is written, the second
    fails: each caller hears of its own write. *)
Lemma writes_complete_to_their_callers_witness :
  effects_since busy
    (run busy (WriteFinished 0 <$> [None; Some "write EPIPE"]))
  = [CallbackFired 1 None; CallbackFired 2 (Some "write EPIPE")].
Proof.
  refine (proj1 (proj2 (writes_complete_to_their_callers connected 0
                          (mkSocket Established true (AppCallback 0) [])
                          two_writes [] [None; Some "write EPIPE"]
                          _ _ _ _))); try reflexivity.
  by repeat split.
Defined.

End PathRuns.
